(** * RhinoLoadSTL.py: the STL reader of examples/Helyx/constant/triSurface

    A shallow embedding of the script's sniffer ([is_binary]), its binary
    decoder ([read_triangle], [meshBinaryAdder]), its ASCII decoder
    ([meshAdder]) and its batch loop, followed by the properties of the
    specification that concern them.

    Modelling choices.
    - A Python 2 [str] is a byte string: [pystr := list ascii].  File
      contents, lines, tokens and file names are all of this type.
    - A single-precision coordinate is carried as the 32-bit pattern found in
      the file ([Z], little-endian); the script performs no arithmetic on
      coordinates.
    - The module-level lists [normals], [points], [triangles], [bytecount],
      the record of files opened and closed, and the host document are the
      fields of [world]; a statement of the script is a function
      [world -> outcome A * world], so the effects an exception leaves behind
      are kept.
    - [while True] is run with fuel; [meshBinaryAdder] supplies more fuel than
      the file has bytes and [meshBinaryAdder_fuel_enough] shows it never
      runs out. *)

From Stdlib Require Import ZArith Ascii String Lia Bool.
From stdpp Require Import base list.

Local Open Scope Z_scope.
Local Open Scope nat_scope.

(** ** Python byte strings *)

Definition pystr := list ascii.

Definition py (s : string) : pystr := list_ascii_of_string s.

Definition NUL : ascii := Ascii.zero.
Definition LF : ascii := ascii_of_nat 10.
Definition DOT : ascii := "."%char.

Definition ascii_eqb (a b : ascii) : bool := Ascii.eqb a b.

Fixpoint pystr_eqb (s t : pystr) : bool :=
  match s, t with
  | [], [] => true
  | a :: s', b :: t' => ascii_eqb a b && pystr_eqb s' t'
  | _, _ => false
  end.

(** [c in s] for a one-character [c]. *)
Definition char_in (c : ascii) (s : pystr) : bool := existsb (ascii_eqb c) s.

(** [s.startswith(p)]. *)
Fixpoint starts_with (p s : pystr) : bool :=
  match p, s with
  | [], _ => true
  | a :: p', b :: s' => ascii_eqb a b && starts_with p' s'
  | _ :: _, [] => false
  end.

(** [p in s]: [p] occurs in [s] as a substring. *)
Fixpoint str_in (p s : pystr) : bool :=
  starts_with p s ||
  match s with
  | [] => false
  | _ :: s' => str_in p s'
  end.

(** [s.replace(p, "")] for a non-empty [p]: occurrences are removed from left
    to right without overlap.  [skip] counts the characters of an occurrence
    still to be dropped. *)
Fixpoint remove_from (p : pystr) (skip : nat) (s : pystr) : pystr :=
  match s with
  | [] => []
  | c :: s' =>
      match skip with
      | S k => remove_from p k s'
      | O => if starts_with p s then remove_from p (length p - 1) s'
             else c :: remove_from p 0 s'
      end
  end.

Definition str_remove (p s : pystr) : pystr := remove_from p 0 s.

(** [s.split(sep)] for a one-character separator: never empty. *)
Fixpoint split_on (sep : ascii) (s : pystr) : list pystr :=
  match s with
  | [] => [[]]
  | c :: s' =>
      if ascii_eqb c sep then [] :: split_on sep s'
      else match split_on sep s' with
           | [] => [[c]]
           | w :: ws => (c :: w) :: ws
           end
  end.

(** [parts[-1]] on a list; [None] stands for IndexError. *)
Definition last_item {A} (l : list A) : option A := last l.

(** Whitespace of [str.split()] on a Python 2 byte string. *)
Definition is_space (c : ascii) : bool :=
  let n := nat_of_ascii c in
  Nat.eqb n 32 || Nat.eqb n 9 || Nat.eqb n 10 || Nat.eqb n 11 ||
  Nat.eqb n 12 || Nat.eqb n 13.

(** [s.split()]: the maximal runs of non-whitespace characters.  [cur] is the
    run being read, in reverse. *)
Fixpoint split_ws_from (cur : pystr) (s : pystr) : list pystr :=
  match s with
  | [] => match cur with [] => [] | _ => [rev cur] end
  | c :: s' =>
      if is_space c then
        match cur with
        | [] => split_ws_from [] s'
        | _ => rev cur :: split_ws_from [] s'
        end
      else split_ws_from (c :: cur) s'
  end.

Definition split_ws (s : pystr) : list pystr := split_ws_from [] s.

(** Iterating over a file object: the lines, each with its terminating
    newline (the last one may lack it). *)
Fixpoint lines_from (cur : pystr) (s : pystr) : list pystr :=
  match s with
  | [] => match cur with [] => [] | _ => [rev cur] end
  | c :: s' =>
      if ascii_eqb c LF then rev (c :: cur) :: lines_from [] s'
      else lines_from (c :: cur) s'
  end.

Definition file_lines (s : pystr) : list pystr := lines_from [] s.

(** ** Outcomes, the world and the statement monad *)

Inductive exn := StructError | IndexError | ValueError | IOError.

Inductive outcome (A : Type) :=
| Ok (a : A)
| Raise (e : exn)
| OutOfFuel.
Arguments Ok {A} a.
Arguments Raise {A} e.
Arguments OutOfFuel {A}.

Definition Vec3 : Type := Z * Z * Z.
Definition Face : Type := nat * nat * nat.

(** Modelled from the spec: Rhino.Geometry.Mesh is a class of the host
    application, not of this repository.  It is taken as the IndexedMesh of
    the specification's data model: a vertex buffer and a buffer of index
    triples, with [Vertices.Add] and [Faces.AddFace] appending one entry
    ([AddFace] does not compare its indices with the vertices present) and
    [Append] copying another mesh behind this one with its indices shifted by
    the number of vertices already present. *)
Record Mesh := mkMesh { Vertices : list Vec3; Faces : list Face }.

Definition new_Mesh : Mesh := mkMesh [] [].

Definition Vertices_Add (m : Mesh) (x y z : Z) : Mesh :=
  mkMesh (Vertices m ++ [(x, y, z)]) (Faces m).

Definition Faces_AddFace (m : Mesh) (a b c : nat) : Mesh :=
  mkMesh (Vertices m) (Faces m ++ [(a, b, c)]).

Definition shift_face (o : nat) (t : Face) : Face :=
  let '(a, b, c) := t in (o + a, o + b, o + c).

Definition Mesh_Append (m other : Mesh) : Mesh :=
  mkMesh (Vertices m ++ Vertices other)
         (Faces m ++ map (shift_face (length (Vertices m))) (Faces other)).

Inductive event := EvOpen (name : pystr) | EvClose (name : pystr).

Record world := mkWorld {
  normals : list Vec3;
  points : list Vec3;
  triangles : list Face;
  bytecount : list Z;
  trace : list event;
  doc : list (pystr * Mesh)
}.

Definition M (A : Type) : Type := world -> outcome A * world.

Definition ret {A} (a : A) : M A := fun w => (Ok a, w).

Definition bind {A B} (m : M A) (k : A -> M B) : M B :=
  fun w =>
    match m w with
    | (Ok a, w') => k a w'
    | (Raise e, w') => (Raise e, w')
    | (OutOfFuel, w') => (OutOfFuel, w')
    end.

Definition raise {A} (e : exn) : M A := fun w => (Raise e, w).

Definition out_of_fuel {A} : M A := fun w => (OutOfFuel, w).

Notation "'do' x <- m ; k" := (bind m (fun x => k))
  (at level 10, x pattern, m at level 100, k at level 200).
Notation "'do_' m ; k" := (bind m (fun _ => k))
  (at level 10, m at level 100, k at level 200).

(** [try: body  except: handler] with a bare [except]. *)
Definition try_except {A} (body : M A) (handler : M A) : M A :=
  fun w =>
    match body w with
    | (Raise _, w') => handler w'
    | r => r
    end.

Definition log (e : event) : M unit :=
  fun w => (Ok tt, mkWorld (normals w) (points w) (triangles w) (bytecount w)
                           (trace w ++ [e]) (doc w)).

Definition normals_append (n : Vec3) : M unit :=
  fun w => (Ok tt, mkWorld (normals w ++ [n]) (points w) (triangles w)
                           (bytecount w) (trace w) (doc w)).

Definition points_append (p : Vec3) : M unit :=
  fun w => (Ok tt, mkWorld (normals w) (points w ++ [p]) (triangles w)
                           (bytecount w) (trace w) (doc w)).

Definition triangles_append (t : Face) : M unit :=
  fun w => (Ok tt, mkWorld (normals w) (points w) (triangles w ++ [t])
                           (bytecount w) (trace w) (doc w)).

Definition bytecount_append (b : Z) : M unit :=
  fun w => (Ok tt, mkWorld (normals w) (points w) (triangles w)
                           (bytecount w ++ [b]) (trace w) (doc w)).

Definition len_points : M nat := fun w => (Ok (length (points w)), w).
Definition len_triangles : M nat := fun w => (Ok (length (triangles w)), w).

(** [points[i]] and [triangles[n]] on the module-level lists. *)
Definition points_at (i : nat) : M Vec3 :=
  fun w => match points w !! i with
           | Some p => (Ok p, w)
           | None => (Raise IndexError, w)
           end.

Definition triangles_at (n : nat) : M Face :=
  fun w => match triangles w !! n with
           | Some t => (Ok t, w)
           | None => (Raise IndexError, w)
           end.

(** [normals = [];points = [];triangles = [];bytecount = []] *)
Definition reset_accumulators : M unit :=
  fun w => (Ok tt, mkWorld [] [] [] [] (trace w) (doc w)).

(** [sr.doc.Objects.AddMesh(MESH)] on the layer made current just before. *)
Definition doc_AddMesh (layer : pystr) (m : Mesh) : M unit :=
  fun w => (Ok tt, mkWorld (normals w) (points w) (triangles w) (bytecount w)
                           (trace w) (doc w ++ [(layer, m)])).

(** ** Files *)

Record file := mkFile { fname : pystr; data : pystr; pos : nat }.

(** [f.read(l)]: at most [l] bytes from the current position. *)
Definition f_read (f : file) (l : nat) : pystr * file :=
  let s := take l (drop (pos f) (data f)) in
  (s, mkFile (fname f) (data f) (pos f + length s)).

(** [f.seek(f.tell()+n)] *)
Definition f_skip (f : file) (n : nat) : file :=
  mkFile (fname f) (data f) (pos f + n).

Section Filesystem.

(** The directory the script runs in: the contents of each entry that can be
    opened for reading, as [read] and the iteration over lines deliver them
    (the same bytes in binary and in text mode). *)
Variable fs : pystr -> option pystr.

(** [open(name, mode)] outside a [with]. *)
Definition open_file (name : pystr) : M file :=
  match fs name with
  | None => raise IOError
  | Some bytes => do_ log (EvOpen name); ret (mkFile name bytes 0)
  end.

(** [with open(name, mode) as f: body]: the file is closed when the block is
    left, whether by falling through, [return] or an exception. *)
Definition with_open {A} (name : pystr) (body : file -> M A) : M A :=
  do f <- open_file name;
  fun w =>
    let '(r, w') := body f w in
    match log (EvClose name) w' with
    | (_, w'') => (r, w'')
    end.

(** ** The sniffer *)

Definition extension (filename : pystr) : option pystr :=
  last_item (split_on DOT filename).

Definition is_stl_name (filename : pystr) : bool :=
  match extension filename with
  | Some e => pystr_eqb e (py "stl")
  | None => false
  end.

(** [for block in f: if '\0' in block: return True] *)
Fixpoint scan_blocks (blocks : list pystr) : bool :=
  match blocks with
  | [] => false
  | block :: rest => if char_in NUL block then true else scan_blocks rest
  end.

(** The three results of [is_binary]: [None], [True], [False]. *)
Definition is_binary (filename : pystr) : M (option bool) :=
  if negb (is_stl_name filename) then ret None
  else
    with_open filename (fun f => ret (Some (scan_blocks (file_lines (data f))))).

(** ** The binary decoder *)

(** The value of a byte string read as a little-endian unsigned integer. *)
Definition le_uint (s : pystr) : Z :=
  fold_right (fun b acc => Z.of_nat (nat_of_ascii b) + 256 * acc)%Z 0%Z s.

(** The same bytes read as a two's complement integer of [bits] bits. *)
Definition le_sint (bits : Z) (s : pystr) : Z :=
  let u := le_uint s in
  if (u <? 2 ^ (bits - 1))%Z then u else (u - 2 ^ bits)%Z.

(** The three format strings the script uses: ["<3f"], ["<h"] and ["@i"]. *)
Inductive fmt := Fmt_3f | Fmt_h | Fmt_i.

Definition calcsize (sig : fmt) : nat :=
  match sig with Fmt_3f => 12 | Fmt_h => 2 | Fmt_i => 4 end.

(** What [st.unpack] returns: three floats for ["<3f"], the single element of
    the 1-tuple for the integer formats. *)
Definition tuple_of (sig : fmt) : Type :=
  match sig with Fmt_3f => Vec3 | Fmt_h => Z | Fmt_i => Z end.

(** [st.unpack(sig, s)]: struct.error unless [s] has exactly the size of the
    format.  A float is carried as the pattern of its four bytes; for the
    pattern of a NaN this stands for whichever NaN Python makes of it. *)
Definition st_unpack (sig : fmt) (s : pystr) : M (tuple_of sig) :=
  if negb (length s =? calcsize sig) then raise StructError
  else
    ret (match sig return tuple_of sig with
         | Fmt_3f => (le_uint (take 4 s), le_uint (take 4 (drop 4 s)),
                      le_uint (take 4 (drop 8 s)))
         | Fmt_h => le_sint 16 s
         | Fmt_i => le_sint 32 s
         end).

Definition unpack (f : file) (sig : fmt) (l : nat) : M (tuple_of sig * file) :=
  let '(s, f) := f_read f l in
  do v <- st_unpack sig s;
  ret (v, f).

Definition read_triangle (f : file) : M file :=
  do (n, f) <- unpack f Fmt_3f 12;
  do (p1, f) <- unpack f Fmt_3f 12;
  do (p2, f) <- unpack f Fmt_3f 12;
  do (p3, f) <- unpack f Fmt_3f 12;
  do (b, f) <- unpack f Fmt_h 2;
  do_ normals_append n;
  do l <- len_points;
  do_ points_append p1;
  do_ points_append p2;
  do_ points_append p3;
  do_ triangles_append (l, l + 1, l + 2);
  do_ bytecount_append b;
  ret f.

Definition read_length (f : file) : M (Z * file) :=
  let '(s, f) := f_read f 4 in
  do length <- st_unpack Fmt_i s;
  ret (length, f).

Definition read_header (f : file) : M file := ret (f_skip f 80).

(** [while True: read_triangle(f)] *)
Fixpoint while_True_read_triangle (fuel : nat) (f : file) : M unit :=
  match fuel with
  | O => out_of_fuel
  | S fuel' => do f <- read_triangle f; while_True_read_triangle fuel' f
  end.

(** [for x in xs: body], threading the local variables [s]. *)
Fixpoint for_each {X S} (body : X -> S -> M S) (xs : list X) (s : S) : M S :=
  match xs with
  | [] => ret s
  | x :: rest => do s <- body x s; for_each body rest s
  end.

Definition idx0 (t : Face) : nat := let '(a, _, _) := t in a.
Definition idx1 (t : Face) : nat := let '(_, b, _) := t in b.
Definition idx2 (t : Face) : nat := let '(_, _, c) := t in c.

(** [temp_mesh.Vertices.Add(points[triangles[n][k]][0],
                            points[triangles[n][k]][1],
                            points[triangles[n][k]][2])] *)
Definition add_corner (temp_mesh : Mesh) (n : nat) (k : Face -> nat) : M Mesh :=
  do t <- triangles_at n;
  do p <- points_at (k t);
  let '(x, y, z) := p in
  ret (Vertices_Add temp_mesh x y z).

(** The body of [for n in range(len(triangles))]; the locals are
    [(temp_mesh, MESH)]. *)
Definition binary_body (n : nat) (s : Mesh * Mesh) : M (Mesh * Mesh) :=
  let '(temp_mesh, MESH) := s in
  do temp_mesh <- add_corner temp_mesh n idx0;
  let temp_mesh := Faces_AddFace temp_mesh 0 1 2 in
  let MESH := Mesh_Append MESH temp_mesh in
  do temp_mesh <- add_corner temp_mesh n idx1;
  let temp_mesh := Faces_AddFace temp_mesh 0 1 2 in
  let MESH := Mesh_Append MESH temp_mesh in
  do temp_mesh <- add_corner temp_mesh n idx2;
  let temp_mesh := Faces_AddFace temp_mesh 0 1 2 in
  let MESH := Mesh_Append MESH temp_mesh in
  let temp_mesh := new_Mesh in
  ret (temp_mesh, MESH).

(** Lines 87-94 of the script: open, skip the header, read the count, read
    facets until a read fails. *)
Definition decodeBinary (file_ : pystr) : M unit :=
  do f <- open_file file_;
  do f <- read_header f;
  do (l, f) <- read_length f;
  try_except (while_True_read_triangle (S (length (data f))) f) (ret tt).

(** Lines 95-115: build the combined mesh from the accumulators and hand it
    to the document.  The layer, its random colour, [ComputeNormals] and
    [Compact] belong to the host and are left out. *)
Definition buildBinary (file_ : pystr) : M unit :=
  let temp_mesh := new_Mesh in
  let MESH := new_Mesh in
  if negb (is_stl_name file_) then ret tt
  else
    do count <- len_triangles;
    do (temp_mesh, MESH) <- for_each binary_body (seq 0 count) (temp_mesh, MESH);
    doc_AddMesh file_ MESH.

Definition meshBinaryAdder (file_ : pystr) : M unit :=
  do_ decodeBinary file_;
  buildBinary file_.

(** ** The ASCII decoder *)

Section Ascii.

(** Python's [float], followed by the narrowing to single precision that
    [Vertices.Add] performs: the bit pattern stored for a token, or [None]
    where [float] raises ValueError. *)
Variable float_of_string : pystr -> option Z.

(** [[float(x) for x in toks]] *)
Fixpoint floats_of (toks : list pystr) : M (list Z) :=
  match toks with
  | [] => ret []
  | x :: rest =>
      match float_of_string x with
      | None => raise ValueError
      | Some v => do vs <- floats_of rest; ret (v :: vs)
      end
  end.

Definition item (q : list Z) (i : nat) : M Z :=
  match q !! i with
  | Some v => ret v
  | None => raise IndexError
  end.

(** The body of [for line in f]; the locals are [(temp_mesh, MESH)]. *)
Definition ascii_body (line : pystr) (s : Mesh * Mesh) : M (Mesh * Mesh) :=
  let '(temp_mesh, MESH) := s in
  do temp_mesh <-
    (if str_in (py "vertex") line then
       let q := str_remove (py "vertex") line in
       let q := str_remove [LF] q in
       do q <- floats_of (split_ws q);
       do x <- item q 0;
       do y <- item q 1;
       do z <- item q 2;
       ret (Vertices_Add temp_mesh x y z)
     else ret temp_mesh);
  if str_in (py "endloop") line then
    let temp_mesh := Faces_AddFace temp_mesh 0 1 2 in
    let MESH := Mesh_Append MESH temp_mesh in
    let temp_mesh := new_Mesh in
    ret (temp_mesh, MESH)
  else ret (temp_mesh, MESH).

(** Lines 66-78: the mesh the ASCII path assembles from a file. *)
Definition decodeAscii (file_ : pystr) : M (Mesh * Mesh) :=
  with_open file_
    (fun f => for_each ascii_body (file_lines (data f)) (new_Mesh, new_Mesh)).

(** As in [buildBinary], the layer, its colour, [ComputeNormals] and
    [Compact] are left to the host. *)
Definition meshAdder (file_ : pystr) : M unit :=
  if negb (is_stl_name file_) then ret tt
  else
    do (temp_mesh, MESH) <- decodeAscii file_;
    doc_AddMesh file_ MESH.

(** ** The batch loop *)

(** Truth value of what [is_binary] returns: [None] and [False] are false. *)
Definition truthy (r : option bool) : bool :=
  match r with Some true => true | _ => false end.

(** The body of the loop at lines 119-125, without its [print]. *)
Definition batch_body (name : pystr) : M unit :=
  do b <- is_binary name;
  if truthy b then
    do_ meshBinaryAdder name;
    reset_accumulators
  else meshAdder name.

(** [for i in range(len(list_of_files))]; the redraw that follows the loop
    belongs to the host. *)
Definition batch (list_of_files : list pystr) : M unit :=
  for_each (fun name (_ : unit) => batch_body name) list_of_files tt.

End Ascii.

End Filesystem.

(** The state in which the script enters its loop: empty accumulators (lines
    27-30), nothing opened, an empty document. *)
Definition initial_world : world := mkWorld [] [] [] [] [] [].

(** ** Definitions used to state the properties *)

(** [filename.split('.')[-1]] without the list: the part of a name after its
    last ['.'], the whole name when it has none. *)
Fixpoint last_component (s : pystr) : pystr :=
  match s with
  | [] => []
  | c :: s' =>
      if char_in DOT s' then last_component s'
      else if ascii_eqb DOT c then s' else s
  end.

(** The suffix of a name after its last ['.'], written from the words of the
    specification: a name without a dot has no such suffix. *)
Fixpoint suffix_after_last_dot (s : pystr) : option pystr :=
  match s with
  | [] => None
  | c :: s' =>
      match suffix_after_last_dot s' with
      | Some t => Some t
      | None => if ascii_eqb DOT c then Some s' else None
      end
  end.

(** The four module-level accumulators. *)
Definition accs (w : world) : list Vec3 * list Vec3 * list Face * list Z :=
  (normals w, points w, triangles w, bytecount w).

Definition empty_accumulators (w : world) : Prop := accs w = ([], [], [], []).

(** A statement leaves a component of the world as it found it. *)
Definition keeps {X A} (proj : world -> X) (m : M A) : Prop :=
  forall w, proj (snd (m w)) = proj w.

(** [w'] is [w] with [t] added to the record of opened and closed files and
    [d] to the document. *)
Definition grows (w w' : world) (t : list event) (d : list (pystr * Mesh))
  : Prop :=
  trace w' = trace w ++ t /\ doc w' = doc w ++ d.

(** A statement reads nothing of the world but the accumulators: from two
    worlds with the same accumulators it has the same outcome, leaves the same
    accumulators and adds the same events and meshes. *)
Definition framed {A} (m : M A) : Prop :=
  forall w1 w2, accs w1 = accs w2 ->
    fst (m w1) = fst (m w2) /\
    accs (snd (m w1)) = accs (snd (m w2)) /\
    exists t d, grows w1 (snd (m w1)) t d /\ grows w2 (snd (m w2)) t d.

(** Three little-endian floats from twelve bytes. *)
Definition vec3_of (s : pystr) : Vec3 :=
  (le_uint (take 4 s), le_uint (take 4 (drop 4 s)), le_uint (take 4 (drop 8 s))).

(** What one complete 50-byte facet record adds to the accumulators. *)
Definition push_facet (rec : pystr) (w : world) : world :=
  let l := length (points w) in
  mkWorld (normals w ++ [vec3_of (take 12 rec)])
          (points w ++ [vec3_of (take 12 (drop 12 rec));
                        vec3_of (take 12 (drop 24 rec));
                        vec3_of (take 12 (drop 36 rec))])
          (triangles w ++ [(l, l + 1, l + 2)])
          (bytecount w ++ [le_sint 16 (take 2 (drop 48 rec))])
          (trace w) (doc w).

(** The first [count] records of [body], pushed in file order. *)
Fixpoint add_facets (count : nat) (body : pystr) (w : world) : world :=
  match count with
  | O => w
  | S k => add_facets k (drop 50 body) (push_facet (take 50 body) w)
  end.

(** The world after [name] has been opened. *)
Definition opened (name : pystr) (w : world) : world :=
  mkWorld (normals w) (points w) (triangles w) (bytecount w)
          (trace w ++ [EvOpen name]) (doc w).

(** Every index of a triple is below [n]. *)
Definition face_below (n : nat) (t : Face) : Prop :=
  idx0 t < n /\ idx1 t < n /\ idx2 t < n.

(** The invariant of the specification's IndexedMesh. *)
Definition mesh_in_range (m : Mesh) : Prop :=
  Forall (face_below (length (Vertices m))) (Faces m).

(** The same for the accumulators [triangles] and [points]. *)
Definition accs_in_range (w : world) : Prop :=
  Forall (face_below (length (points w))) (triangles w).

(** What one turn of the loop of [meshBinaryAdder] adds to the combined mesh
    for a facet with corners [a], [b], [c]: the growing [temp_mesh] is
    appended after each corner. *)
Definition append_facet (MESH : Mesh) (a b c : Vec3) : Mesh :=
  let o := length (Vertices MESH) in
  mkMesh (Vertices MESH ++ [a; a; b; a; b; c])
         (Faces MESH ++ [(o, o + 1, o + 2);
                         (o + 1, o + 2, o + 3); (o + 1, o + 2, o + 3);
                         (o + 3, o + 4, o + 5); (o + 3, o + 4, o + 5);
                         (o + 3, o + 4, o + 5)]).

(** The triangle of facet [k] in a flat, unshared vertex buffer. *)
Definition flat_triangle (k : nat) : Face := (3 * k, 3 * k + 1, 3 * k + 2).

(** The number of lines in which [p] occurs. *)
Fixpoint count_lines_with (p : pystr) (lines : list pystr) : nat :=
  match lines with
  | [] => 0
  | line :: rest =>
      (if str_in p line then 1 else 0) + count_lines_with p rest
  end.

(** Every [endloop] line is reached with at least three vertices pending,
    [pending] of them being there at the start. *)
Fixpoint loops_complete (pending : nat) (lines : list pystr) : bool :=
  match lines with
  | [] => true
  | line :: rest =>
      let pending :=
        if str_in (py "vertex") line then S pending else pending in
      if str_in (py "endloop") line
      then (3 <=? pending) && loops_complete 0 rest
      else loops_complete pending rest
  end.

(** The tokens [float] is applied to on a line containing [vertex]. *)
Definition vertex_tokens (line : pystr) : list pystr :=
  split_ws (str_remove [LF] (str_remove (py "vertex") line)).

(** A line the loop of [meshAdder] does anything with. *)
Definition relevant_line (line : pystr) : bool :=
  str_in (py "vertex") line || str_in (py "endloop") line.

(** Every [endloop] line is reached with exactly three vertices pending. *)
Fixpoint loops_exact (pending : nat) (lines : list pystr) : bool :=
  match lines with
  | [] => true
  | line :: rest =>
      let pending :=
        if str_in (py "vertex") line then S pending else pending in
      if str_in (py "endloop") line
      then (pending =? 3) && loops_exact 0 rest
      else loops_exact pending rest
  end.

(** The number of vertices still pending after the last line. *)
Fixpoint pending_after (pending : nat) (lines : list pystr) : nat :=
  match lines with
  | [] => pending
  | line :: rest =>
      let pending :=
        if str_in (py "vertex") line then S pending else pending in
      if str_in (py "endloop") line
      then pending_after 0 rest
      else pending_after pending rest
  end.

(** The four accumulators describe the same number of facets. *)
Definition accumulators_aligned (w : world) : Prop :=
  length (points w) = 3 * length (normals w) /\
  length (triangles w) = length (normals w) /\
  length (bytecount w) = length (normals w).

(** The 32-bit pattern of a single-precision number or infinity: the bits
    below the sign are at most those of infinity, so the pattern is not a
    NaN.  And a value of a signed 16-bit field. *)
Definition is_f32 (x : Z) : Prop :=
  (0 <= x < 2 ^ 32)%Z /\ (x mod 2 ^ 31 <= 2139095040)%Z.
Definition is_vec3 (v : Vec3) : Prop :=
  let '(x, y, z) := v in is_f32 x /\ is_f32 y /\ is_f32 z.
Definition is_int16 (x : Z) : Prop := (- 2 ^ 15 <= x < 2 ^ 15)%Z.

(** The world after [name] has been opened and closed. *)
Definition closed_after (name : pystr) (w : world) : world :=
  mkWorld (normals w) (points w) (triangles w) (bytecount w)
          (trace w ++ [EvOpen name; EvClose name]) (doc w).

(** [float] accepts the token. *)
Definition accepted (fos : pystr -> option Z) (t : pystr) : bool :=
  match fos t with Some _ => true | None => false end.

(** A line the loop of [meshAdder] gets past: it does not contain [vertex],
    or what is left of it splits into at least three tokens, all accepted. *)
Definition vertex_line_ok (fos : pystr -> option Z) (line : pystr) : bool :=
  negb (str_in (py "vertex") line)
  || (forallb (accepted fos) (vertex_tokens line)
      && (3 <=? length (vertex_tokens line))).


(** ** Example files *)

(** A directory with one entry. *)
Definition single_file (name content : pystr) : pystr -> option pystr :=
  fun n => if pystr_eqb n name then Some content else None.

(** [k] bytes of [v], least significant first. *)
Fixpoint le_bytes (k : nat) (v : Z) : pystr :=
  match k with
  | O => []
  | S k' => ascii_of_nat (Z.to_nat (v mod 256)) :: le_bytes k' (v / 256)
  end.

Definition vec3_bytes (v : Vec3) : pystr :=
  let '(x, y, z) := v in le_bytes 4 x ++ le_bytes 4 y ++ le_bytes 4 z.

(** One 50-byte facet record. *)
Definition facet_record (n a b c : Vec3) (attr : Z) : pystr :=
  vec3_bytes n ++ vec3_bytes a ++ vec3_bytes b ++ vec3_bytes c
  ++ le_bytes 2 attr.

Definition header80 : pystr := repeat NUL 80.

(** The single-precision patterns of 0.0, 1.0 and 2.0. *)
Definition f0 : Z := 0.
Definition f1 : Z := 1065353216.
Definition f2 : Z := 1073741824.

(** The binary scenario of the specification: an all-zero header, count 2
    and the facets (0,0,0),(1,0,0),(0,1,0) and (1,1,1),(2,1,1),(1,2,1). *)
Definition two_facets : pystr :=
  header80 ++ le_bytes 4 2
  ++ facet_record (f0, f0, f1) (f0, f0, f0) (f1, f0, f0) (f0, f1, f0) 0
  ++ facet_record (f0, f0, f1) (f1, f1, f1) (f2, f1, f1) (f1, f2, f1) 0.

(** The same file cut in the middle of its second facet. *)
Definition two_facets_cut : pystr := take 150 two_facets.

(** The same file with 7 in the count field. *)
Definition two_facets_count7 : pystr :=
  header80 ++ le_bytes 4 7 ++ drop 84 two_facets.

Definition a_stl : pystr := py "a.stl".

(** The ASCII scenario of the specification. *)
Definition ascii_scenario : pystr :=
  py "solid part
facet normal 0 0 1
outer loop
vertex 1 2 3
vertex 4 5 6
vertex 7 8 9
endloop
endfacet
endsolid part
".

(** A file that closes a loop it never filled. *)
Definition lone_endloop : pystr := py "endloop
".

(** A stand-in for [float] that knows the one-digit numerals only and returns
    the digit itself. *)
Definition digit_float (s : pystr) : option Z :=
  match s with
  | [c] =>
      let n := nat_of_ascii c in
      if (48 <=? n) && (n <=? 57) then Some (Z.of_nat (n - 48)) else None
  | _ => None
  end.

(** The scenario without the lines the loop ignores. *)
Definition ascii_scenario_bare : pystr :=
  py "vertex 1 2 3
vertex 4 5 6
vertex 7 8 9
endloop
".

(** A solid whose name contains the word the loop looks for. *)
Definition vertex_block_file : pystr := py "solid vertex_block
".

(** One closed loop of a single vertex, and a vertex after it. *)
Definition trailing_vertex_file : pystr :=
  py "vertex 1 2 3
endloop
vertex 4 5 6
".

(** A vertex line without numbers, then an [endloop] line. *)
Definition bare_vertex_file : pystr := py "vertex
endloop
".


Definition stl_name : pystr := py "stl".

(** * Properties *)

(** ** Byte strings *)

Lemma ascii_eqb_true a b : ascii_eqb a b = true <-> a = b.
Proof. apply Ascii.eqb_eq. Qed.

Lemma pystr_eqb_true s t : pystr_eqb s t = true <-> s = t.
Proof.
  revert t; induction s as [|a s IH]; intros [|b t]; simpl; try easy.
  rewrite andb_true_iff, ascii_eqb_true, IH.
  split; [intros [-> ->]; reflexivity | intros [= -> ->]; auto].
Qed.

Lemma char_in_true c s : char_in c s = true <-> In c s.
Proof.
  unfold char_in. rewrite existsb_exists. split.
  - intros (x & Hx & E). apply ascii_eqb_true in E. now subst.
  - intros H. exists c. split; [assumption | now apply ascii_eqb_true].
Qed.

Lemma char_in_app c s t : char_in c (s ++ t) = char_in c s || char_in c t.
Proof. apply existsb_app. Qed.

Lemma char_in_rev c s : char_in c (rev s) = char_in c s.
Proof.
  induction s as [|a s IH]; simpl; [reflexivity|].
  rewrite char_in_app, IH. simpl. rewrite orb_false_r. apply orb_comm.
Qed.

Lemma split_on_no_sep sep s :
  char_in sep s = false -> split_on sep s = [s].
Proof.
  induction s as [|c s IH]; simpl; [reflexivity|].
  intros H. apply orb_false_iff in H as [Hc Hs].
  replace (ascii_eqb c sep) with false
    by (unfold ascii_eqb in *; now rewrite Ascii.eqb_sym).
  now rewrite (IH Hs).
Qed.

Lemma split_on_sep_two sep s :
  char_in sep s = true -> exists w v ws, split_on sep s = w :: v :: ws.
Proof.
  induction s as [|c s IH]; simpl; [discriminate|].
  intros H. destruct (ascii_eqb c sep) eqn:E.
  - destruct (split_on sep s) as [|v ws] eqn:Es.
    + destruct s; simpl in Es; [discriminate|].
      destruct (ascii_eqb a sep); [discriminate|].
      destruct (split_on sep s); discriminate.
    + now exists [], v, ws.
  - replace (ascii_eqb sep c) with false in H
      by (unfold ascii_eqb in *; now rewrite Ascii.eqb_sym).
    simpl in H. destruct (IH H) as (w & v & ws & ->).
    now exists (c :: w), v, ws.
Qed.

Lemma suffix_no_dot s :
  char_in DOT s = false -> last_component s = s.
Proof.
  destruct s as [|c s]; simpl; [reflexivity|].
  intros H. apply orb_false_iff in H as [-> ->]. reflexivity.
Qed.

(** [filename.split('.')[-1]] is the suffix after the last dot. *)
Lemma extension_suffix s : extension s = Some (last_component s).
Proof.
  unfold extension, last_item.
  induction s as [|c s IH]; [reflexivity|].
  cbn [split_on last_component].
  destruct (char_in DOT s) eqn:Hd.
  - destruct (split_on_sep_two _ _ Hd) as (w & v & ws & E).
    rewrite E in *. destruct (ascii_eqb c DOT); exact IH.
  - rewrite (split_on_no_sep _ _ Hd).
    unfold ascii_eqb. rewrite (Ascii.eqb_sym DOT c).
    destruct (Ascii.eqb c DOT); reflexivity.
Qed.

Lemma is_stl_name_suffix s :
  is_stl_name s = true <-> last_component s = py "stl".
Proof.
  unfold is_stl_name. rewrite extension_suffix. apply pystr_eqb_true.
Qed.

Lemma char_in_cons c a s : char_in c (a :: s) = ascii_eqb c a || char_in c s.
Proof. reflexivity. Qed.

Lemma scan_blocks_lines cur s :
  scan_blocks (lines_from cur s)
  = char_in NUL cur || char_in NUL s.
Proof.
  revert cur; induction s as [|c s IH]; intros cur; cbn [lines_from].
  - destruct cur as [|a cur]; [reflexivity|].
    cbn [scan_blocks]. rewrite char_in_rev, orb_false_r.
    now destruct (char_in NUL (a :: cur)).
  - rewrite (char_in_cons NUL c s). destruct (ascii_eqb c LF) eqn:E.
    + cbn [scan_blocks]. rewrite char_in_rev, IH, char_in_cons.
      apply ascii_eqb_true in E. subst c.
      replace (ascii_eqb NUL LF) with false by reflexivity.
      cbn [orb]. change (char_in NUL []) with false.
      destruct (char_in NUL cur); reflexivity.
    + rewrite IH, char_in_cons.
      destruct (ascii_eqb NUL c), (char_in NUL cur); reflexivity.
Qed.

(** Scanning line by line finds a NUL byte exactly when the file has one. *)
Lemma scan_blocks_file s : scan_blocks (file_lines s) = char_in NUL s.
Proof. apply scan_blocks_lines. Qed.

(** ** The statement monad *)

Lemma keeps_ret {X A} (proj : world -> X) (a : A) : keeps proj (ret a).
Proof. intros w. reflexivity. Qed.

Lemma keeps_raise {X A} (proj : world -> X) e : keeps proj (@raise A e).
Proof. intros w. reflexivity. Qed.

Lemma keeps_out_of_fuel {X A} (proj : world -> X) :
  keeps proj (@out_of_fuel A).
Proof. intros w. reflexivity. Qed.

Lemma keeps_bind {X A B} (proj : world -> X) (m : M A) (k : A -> M B) :
  keeps proj m -> (forall a, keeps proj (k a)) -> keeps proj (bind m k).
Proof.
  intros Hm Hk w. unfold bind. specialize (Hm w).
  destruct (m w) as [[a| |] w1]; cbn in *; try assumption.
  now rewrite Hk.
Qed.

Lemma keeps_try_except {X A} (proj : world -> X) (body handler : M A) :
  keeps proj body -> keeps proj handler -> keeps proj (try_except body handler).
Proof.
  intros Hb Hh w. unfold try_except. specialize (Hb w).
  destruct (body w) as [[a| |] w1]; cbn in *; try assumption.
  now rewrite Hh.
Qed.

Lemma keeps_for_each {X Y S} (proj : world -> X) (body : Y -> S -> M S) xs :
  (forall x s, keeps proj (body x s)) ->
  forall s, keeps proj (for_each body xs s).
Proof.
  intros Hb. induction xs as [|x xs IH]; intros s; cbn [for_each].
  - apply keeps_ret.
  - apply keeps_bind; [apply Hb | apply IH].
Qed.

Lemma grows_refl w : grows w w [] [].
Proof. split; symmetry; apply app_nil_r. Qed.

Lemma grows_trans w1 w2 w3 t d t' d' :
  grows w1 w2 t d -> grows w2 w3 t' d' -> grows w1 w3 (t ++ t') (d ++ d').
Proof.
  intros [H1 H2] [H3 H4]. split.
  - now rewrite H3, H1, app_assoc.
  - now rewrite H4, H2, app_assoc.
Qed.

Lemma framed_ret {A} (a : A) : framed (ret a).
Proof.
  intros w1 w2 H. cbn. repeat split; try assumption.
  exists [], []. split; apply grows_refl.
Qed.

Lemma framed_raise {A} e : framed (@raise A e).
Proof.
  intros w1 w2 H. cbn. repeat split; try assumption.
  exists [], []. split; apply grows_refl.
Qed.

Lemma framed_out_of_fuel {A} : framed (@out_of_fuel A).
Proof.
  intros w1 w2 H. cbn. repeat split; try assumption.
  exists [], []. split; apply grows_refl.
Qed.

Lemma framed_bind {A B} (m : M A) (k : A -> M B) :
  framed m -> (forall a, framed (k a)) -> framed (bind m k).
Proof.
  intros Hm Hk w1 w2 H. unfold bind.
  destruct (Hm w1 w2 H) as (Hr & Ha & t & d & G1 & G2).
  destruct (m w1) as [r1 u1], (m w2) as [r2 u2]. cbn in *. subst r2.
  destruct r1 as [a| |].
  - destruct (Hk a u1 u2 Ha) as (Hr' & Ha' & t' & d' & G1' & G2').
    repeat split; try assumption.
    exists (t ++ t'), (d ++ d'). split; eapply grows_trans; eassumption.
  - cbn. repeat split; try assumption. now exists t, d.
  - cbn. repeat split; try assumption. now exists t, d.
Qed.

Lemma framed_try_except {A} (body handler : M A) :
  framed body -> framed handler -> framed (try_except body handler).
Proof.
  intros Hb Hh w1 w2 H. unfold try_except.
  destruct (Hb w1 w2 H) as (Hr & Ha & t & d & G1 & G2).
  destruct (body w1) as [r1 u1], (body w2) as [r2 u2]. cbn in *. subst r2.
  destruct r1 as [a| |].
  - cbn. repeat split; try assumption. now exists t, d.
  - destruct (Hh u1 u2 Ha) as (Hr' & Ha' & t' & d' & G1' & G2').
    repeat split; try assumption.
    exists (t ++ t'), (d ++ d'). split; eapply grows_trans; eassumption.
  - cbn. repeat split; try assumption. now exists t, d.
Qed.

Lemma framed_for_each {Y S} (body : Y -> S -> M S) xs :
  (forall x s, framed (body x s)) -> forall s, framed (for_each body xs s).
Proof.
  intros Hb. induction xs as [|x xs IH]; intros s; cbn [for_each].
  - apply framed_ret.
  - apply framed_bind; [apply Hb | apply IH].
Qed.

(** The primitive statements: each reads at most the accumulators. *)
Ltac framed_primitive :=
  let H := fresh in
  let Hn := fresh in let Hp := fresh in let Ht := fresh in let Hb := fresh in
  intros [? ? ? ? ? ?] [? ? ? ? ? ?] H; unfold accs in H; cbn in H;
  injection H as Hn Hp Ht Hb; subst; cbn;
  repeat match goal with |- context [match ?x with _ => _ end] => destruct x end;
  cbn; (split; [reflexivity|]); (split; [reflexivity|]);
  unfold grows; cbn; eexists _, _;
  repeat split; first [reflexivity | symmetry; apply app_nil_r].

Lemma framed_log e : framed (log e).
Proof. framed_primitive. Qed.

Lemma framed_normals_append n : framed (normals_append n).
Proof. framed_primitive. Qed.

Lemma framed_points_append p : framed (points_append p).
Proof. framed_primitive. Qed.

Lemma framed_triangles_append t : framed (triangles_append t).
Proof. framed_primitive. Qed.

Lemma framed_bytecount_append b : framed (bytecount_append b).
Proof. framed_primitive. Qed.

Lemma framed_len_points : framed len_points.
Proof. framed_primitive. Qed.

Lemma framed_len_triangles : framed len_triangles.
Proof. framed_primitive. Qed.

Lemma framed_points_at i : framed (points_at i).
Proof. unfold points_at. framed_primitive. Qed.

Lemma framed_triangles_at n : framed (triangles_at n).
Proof. unfold triangles_at. framed_primitive. Qed.

Lemma framed_reset_accumulators : framed reset_accumulators.
Proof. framed_primitive. Qed.

Lemma framed_doc_AddMesh layer m : framed (doc_AddMesh layer m).
Proof. framed_primitive. Qed.

Create HintDb framed.
#[local] Hint Resolve framed_ret framed_raise framed_out_of_fuel framed_log
  framed_normals_append framed_points_append framed_triangles_append
  framed_bytecount_append framed_len_points framed_len_triangles
  framed_points_at framed_triangles_at framed_reset_accumulators
  framed_doc_AddMesh : framed.

(** One step of a proof that a compound statement is [framed]: follow the
    shape of the statement. *)
Ltac framed_step :=
  first
    [ solve [auto with framed]
    | apply framed_bind; [| intros ?]
    | apply framed_try_except
    | apply framed_for_each; intros ? ?
    | match goal with
      | |- framed (match ?x with _ => _ end) => destruct x
      end ].

Ltac framed_auto := repeat framed_step.

Lemma framed_open_file fs name : framed (open_file fs name).
Proof. unfold open_file. framed_auto. Qed.

Lemma framed_with_open {A} fs name (body : file -> M A) :
  (forall f, framed (body f)) -> framed (with_open fs name body).
Proof.
  intros Hb. unfold with_open. apply framed_bind; [apply framed_open_file|].
  intros f w1 w2 H.
  destruct (Hb f w1 w2 H) as (Hr & Ha & t & d & G1 & G2).
  destruct (body f w1) as [r1 u1], (body f w2) as [r2 u2]. cbn in *.
  repeat split; try assumption.
  exists (t ++ [EvClose name]), d. destruct G1 as [G1 G1'], G2 as [G2 G2'].
  unfold grows; cbn. rewrite G1, G2, <- !app_assoc. auto.
Qed.

#[local] Hint Resolve framed_open_file : framed.

Lemma framed_is_binary fs name : framed (is_binary fs name).
Proof.
  unfold is_binary. destruct (negb (is_stl_name name)); [framed_auto|].
  apply framed_with_open. intros f. framed_auto.
Qed.

Lemma framed_st_unpack sig s : framed (st_unpack sig s).
Proof. unfold st_unpack. framed_auto. Qed.

#[local] Hint Resolve framed_st_unpack : framed.

Lemma framed_unpack f sig l : framed (unpack f sig l).
Proof. unfold unpack, f_read. framed_auto. Qed.

#[local] Hint Resolve framed_unpack : framed.

Lemma framed_read_triangle f : framed (read_triangle f).
Proof. unfold read_triangle. framed_auto. Qed.

Lemma framed_read_length f : framed (read_length f).
Proof. unfold read_length, f_read. framed_auto. Qed.

Lemma framed_read_header f : framed (read_header f).
Proof. unfold read_header. framed_auto. Qed.

#[local] Hint Resolve framed_read_triangle framed_read_length
  framed_read_header : framed.

Lemma framed_while_True_read_triangle fuel :
  forall f, framed (while_True_read_triangle fuel f).
Proof.
  induction fuel as [|fuel IH]; intros f; cbn [while_True_read_triangle].
  - framed_auto.
  - apply framed_bind; [framed_auto | exact IH].
Qed.

#[local] Hint Resolve framed_while_True_read_triangle : framed.

Lemma framed_decodeBinary fs name : framed (decodeBinary fs name).
Proof. unfold decodeBinary. framed_auto. Qed.

Lemma framed_add_corner temp_mesh n k : framed (add_corner temp_mesh n k).
Proof. unfold add_corner. framed_auto. Qed.

#[local] Hint Resolve framed_add_corner : framed.

Lemma framed_binary_body n s : framed (binary_body n s).
Proof. unfold binary_body. framed_auto. Qed.

#[local] Hint Resolve framed_binary_body : framed.

Lemma framed_buildBinary name : framed (buildBinary name).
Proof. unfold buildBinary. framed_auto. Qed.

#[local] Hint Resolve framed_decodeBinary framed_buildBinary : framed.

Lemma framed_meshBinaryAdder fs name : framed (meshBinaryAdder fs name).
Proof. unfold meshBinaryAdder. framed_auto. Qed.

Lemma framed_floats_of fos toks : framed (floats_of fos toks).
Proof.
  induction toks as [|x toks IH]; cbn [floats_of]; [framed_auto|].
  destruct (fos x); [|framed_auto].
  apply framed_bind; [exact IH | intros; framed_auto].
Qed.

Lemma framed_item q i : framed (item q i).
Proof. unfold item. framed_auto. Qed.

#[local] Hint Resolve framed_floats_of framed_item : framed.

Lemma framed_ascii_body fos line s : framed (ascii_body fos line s).
Proof. unfold ascii_body. framed_auto. Qed.

#[local] Hint Resolve framed_ascii_body : framed.

Lemma framed_decodeAscii fs fos name : framed (decodeAscii fs fos name).
Proof. unfold decodeAscii. apply framed_with_open. intros f. framed_auto. Qed.

#[local] Hint Resolve framed_decodeAscii : framed.

Lemma framed_meshAdder fs fos name : framed (meshAdder fs fos name).
Proof. unfold meshAdder. framed_auto. Qed.

#[local] Hint Resolve framed_is_binary framed_meshBinaryAdder
  framed_meshAdder : framed.

Lemma framed_batch_body fs fos name : framed (batch_body fs fos name).
Proof. unfold batch_body. framed_auto. Qed.

#[local] Hint Resolve framed_batch_body : framed.

Lemma framed_batch fs fos files : framed (batch fs fos files).
Proof. unfold batch. framed_auto. Qed.

(** ** The binary decoder *)

Lemma bind_ok {A B} (m : M A) (k : A -> M B) w a w' :
  m w = (Ok a, w') -> bind m k w = k a w'.
Proof. intros H. unfold bind. now rewrite H. Qed.

Lemma bind_raise {A B} (m : M A) (k : A -> M B) w e w' :
  m w = (Raise e, w') -> bind m k w = (Raise e, w').
Proof. intros H. unfold bind. now rewrite H. Qed.

Lemma take_drop_take {A} (n k m : nat) (l : list A) :
  k + n <= m -> take n (drop k (take m l)) = take n (drop k l).
Proof.
  intros H. rewrite !take_drop_commute, take_take.
  now replace ((k + n) `min` m) with (k + n) by lia.
Qed.

Lemma length_read (f : file) l :
  pos f + l <= length (data f) -> length (take l (drop (pos f) (data f))) = l.
Proof. intros H. rewrite length_take, length_drop. lia. Qed.

Lemma unpack_3f_ok f w :
  pos f + 12 <= length (data f) ->
  unpack f Fmt_3f 12 w
  = (Ok (vec3_of (take 12 (drop (pos f) (data f))), f_skip f 12), w).
Proof.
  intros H. unfold unpack, f_read, st_unpack, bind, ret, f_skip.
  rewrite (length_read f 12 H). reflexivity.
Qed.

Lemma unpack_h_ok f w :
  pos f + 2 <= length (data f) ->
  unpack f Fmt_h 2 w
  = (Ok (le_sint 16 (take 2 (drop (pos f) (data f))), f_skip f 2), w).
Proof.
  intros H. unfold unpack, f_read, st_unpack, bind, ret, f_skip.
  rewrite (length_read f 2 H). reflexivity.
Qed.

Lemma unpack_short f sig w :
  length (data f) < pos f + calcsize sig ->
  unpack f sig (calcsize sig) w = (Raise StructError, w).
Proof.
  intros H. unfold unpack, f_read, st_unpack, bind, raise.
  replace (length (take (calcsize sig) (drop (pos f) (data f))) =? calcsize sig)
    with false; [reflexivity|].
  symmetry. apply Nat.eqb_neq. rewrite length_take, length_drop.
  destruct sig; cbn [calcsize] in *; lia.
Qed.

Lemma read_triangle_ok f w :
  pos f + 50 <= length (data f) ->
  read_triangle f w
  = (Ok (f_skip f 50), push_facet (take 50 (drop (pos f) (data f))) w).
Proof.
  intros H. unfold read_triangle.
  do 4 (erewrite bind_ok by (apply unpack_3f_ok; cbn; lia); cbv beta iota).
  erewrite bind_ok by (apply unpack_h_ok; cbn; lia); cbv beta iota.
  unfold bind, normals_append, len_points, points_append, triangles_append,
    bytecount_append, ret, push_facet, f_skip.
  cbn [pos data fname normals points triangles bytecount trace doc].
  rewrite !take_drop_take by lia.
  rewrite !drop_drop, take_take, <- !app_assoc, <- !Nat.add_assoc.
  reflexivity.
Qed.

Lemma read_triangle_short f w :
  length (data f) < pos f + 50 ->
  read_triangle f w = (Raise StructError, w).
Proof.
  intros H. unfold read_triangle.
  destruct (le_lt_dec (pos f + 12) (length (data f))) as [H1|H1];
    [|now apply bind_raise, (unpack_short f Fmt_3f)].
  erewrite bind_ok by (apply unpack_3f_ok; cbn; lia); cbv beta iota.
  destruct (le_lt_dec (pos f + 24) (length (data f))) as [H2|H2];
    [|apply bind_raise, (unpack_short _ Fmt_3f); cbn; lia].
  erewrite bind_ok by (apply unpack_3f_ok; cbn; lia); cbv beta iota.
  destruct (le_lt_dec (pos f + 36) (length (data f))) as [H3|H3];
    [|apply bind_raise, (unpack_short _ Fmt_3f); cbn; lia].
  erewrite bind_ok by (apply unpack_3f_ok; cbn; lia); cbv beta iota.
  destruct (le_lt_dec (pos f + 48) (length (data f))) as [H4|H4];
    [|apply bind_raise, (unpack_short _ Fmt_3f); cbn; lia].
  erewrite bind_ok by (apply unpack_3f_ok; cbn; lia); cbv beta iota.
  apply bind_raise, (unpack_short _ Fmt_h); cbn; lia.
Qed.

(** The loop stops with the struct error of the first short read, having
    pushed every complete record between the file position and the end. *)
Lemma while_True_read_triangle_spec fuel :
  forall f w,
    (length (data f) - pos f) / 50 < fuel ->
    while_True_read_triangle fuel f w
    = (Raise StructError,
       add_facets ((length (data f) - pos f) / 50) (drop (pos f) (data f)) w).
Proof.
  induction fuel as [|fuel IH]; intros f w Hfuel; [lia|].
  cbn [while_True_read_triangle].
  destruct (le_lt_dec (pos f + 50) (length (data f))) as [H|H].
  - erewrite bind_ok by (apply read_triangle_ok; exact H).
    assert (E : (length (data f) - pos f) / 50
                = S ((length (data (f_skip f 50)) - pos (f_skip f 50)) / 50)).
    { cbn [f_skip data pos].
      replace (length (data f) - pos f)
        with (1 * 50 + (length (data f) - (pos f + 50))) by lia.
      rewrite Nat.div_add_l by lia. lia. }
    rewrite IH by lia. rewrite E. cbn [add_facets f_skip data pos].
    now rewrite drop_drop.
  - erewrite bind_raise by (apply read_triangle_short; exact H).
    rewrite Nat.div_small by lia. reflexivity.
Qed.

Lemma decodeBinary_missing fs name w :
  fs name = None -> decodeBinary fs name w = (Raise IOError, w).
Proof. intros H. unfold decodeBinary, open_file. now rewrite H. Qed.

Lemma decodeBinary_no_count fs name d w :
  fs name = Some d -> length d < 84 ->
  decodeBinary fs name w = (Raise StructError, opened name w).
Proof.
  intros H Hlen. unfold decodeBinary, open_file. rewrite H.
  unfold read_header, read_length, f_read, f_skip, st_unpack, bind, log, ret,
    raise.
  cbn [pos data fname fst snd calcsize].
  replace (length (take 4 (drop (0 + 80) d)) =? 4) with false; [reflexivity|].
  symmetry. apply Nat.eqb_neq. rewrite length_take, length_drop. lia.
Qed.

Lemma decodeBinary_spec fs name d w :
  fs name = Some d -> 84 <= length d ->
  decodeBinary fs name w
  = (Ok tt, add_facets ((length d - 84) / 50) (drop 84 d) (opened name w)).
Proof.
  intros H Hlen. unfold decodeBinary, open_file. rewrite H.
  unfold read_header, read_length, f_read, f_skip, st_unpack, bind at 1 2 3 4 5,
    log, ret, raise.
  cbn [pos data fname fst snd calcsize].
  replace (length (take 4 (drop (0 + 80) d)) =? 4) with true.
  2:{ symmetry. apply Nat.eqb_eq. rewrite length_take, length_drop. lia. }
  cbn [negb]. unfold try_except.
  rewrite while_True_read_triangle_spec.
  - cbn [pos data]. rewrite length_take, length_drop.
    replace (0 + 80 + 4 `min` (length d - (0 + 80))) with 84 by lia.
    reflexivity.
  - cbn [pos data]. rewrite length_take, length_drop.
    replace (0 + 80 + 4 `min` (length d - (0 + 80))) with 84 by lia.
    assert ((length d - 84) / 50 <= length d - 84)
      by (apply Nat.Div0.div_le_upper_bound; lia).
    lia.
Qed.

(** *** The accumulators after a decode *)

Lemma add_facets_trace n : forall body w,
  trace (add_facets n body w) = trace w /\ doc (add_facets n body w) = doc w.
Proof.
  induction n as [|n IH]; intros body w; cbn [add_facets]; [easy|].
  destruct (IH (drop 50 body) (push_facet (take 50 body) w)) as [-> ->].
  easy.
Qed.

Lemma add_facets_lengths n : forall body w,
  length (normals (add_facets n body w)) = length (normals w) + n /\
  length (points (add_facets n body w)) = length (points w) + 3 * n /\
  length (triangles (add_facets n body w)) = length (triangles w) + n /\
  length (bytecount (add_facets n body w)) = length (bytecount w) + n.
Proof.
  induction n as [|n IH]; intros body w; cbn [add_facets]; [lia|].
  destruct (IH (drop 50 body) (push_facet (take 50 body) w))
    as (-> & -> & -> & ->).
  unfold push_facet; cbn [normals points triangles bytecount].
  rewrite !length_app. cbn [length]. lia.
Qed.

Lemma face_ext (a b c a' b' c' : nat) :
  a = a' -> b = b' -> c = c' -> (a, b, c) = (a', b', c').
Proof. now intros -> -> ->. Qed.

Lemma add_facets_triangles n : forall body w,
  triangles (add_facets n body w)
  = triangles w
    ++ map (fun k => shift_face (length (points w)) (flat_triangle k)) (seq 0 n).
Proof.
  induction n as [|n IH]; intros body w; cbn [add_facets].
  - cbn. now rewrite app_nil_r.
  - rewrite IH. unfold push_facet at 1 2; cbn [triangles points].
    rewrite <- app_assoc. f_equal. cbn [seq map app]. f_equal.
    + unfold shift_face, flat_triangle. apply face_ext; lia.
    + rewrite <- seq_shift, map_map. apply map_ext. intros k.
      rewrite length_app. cbn [length].
      unfold shift_face, flat_triangle. apply face_ext; lia.
Qed.

Lemma push_facet_in_range rec w :
  accs_in_range w -> accs_in_range (push_facet rec w).
Proof.
  unfold accs_in_range, push_facet; cbn [triangles points]. intros H.
  rewrite length_app. cbn [length]. apply Forall_app. split.
  - eapply Forall_impl; [exact H|]. unfold face_below. intros t; lia.
  - constructor; [|constructor]. unfold face_below; cbn. lia.
Qed.

Lemma add_facets_in_range n : forall body w,
  accs_in_range w -> accs_in_range (add_facets n body w).
Proof.
  induction n as [|n IH]; intros body w H; cbn [add_facets]; [exact H|].
  now apply IH, push_facet_in_range.
Qed.

(** Only the first [50 * n] bytes of the body are looked at. *)
Lemma add_facets_take n : forall m body w,
  50 * n <= m -> add_facets n (take m body) w = add_facets n body w.
Proof.
  induction n as [|n IH]; intros m body w H; cbn [add_facets]; [reflexivity|].
  rewrite take_take. replace (50 `min` m) with 50 by lia.
  rewrite <- (IH (m - 50) (drop 50 body)) by lia.
  now rewrite skipn_firstn_comm.
Qed.

(** *** The combined mesh *)

Lemma append_facet_in_range MESH a b c :
  mesh_in_range MESH -> mesh_in_range (append_facet MESH a b c).
Proof.
  unfold mesh_in_range, append_facet; cbn [Vertices Faces]. intros H.
  rewrite length_app. cbn [length]. apply Forall_app. split.
  - eapply Forall_impl; [exact H|]. unfold face_below. intros t; lia.
  - repeat constructor; cbn; lia.
Qed.

Lemma add_corner_ok temp_mesh n k w t (p : Vec3) x y z :
  triangles w !! n = Some t ->
  points w !! k t = Some p ->
  p = (x, y, z) ->
  add_corner temp_mesh n k w = (Ok (Vertices_Add temp_mesh x y z), w).
Proof.
  intros Ht Hp ->. unfold add_corner, triangles_at, points_at, bind, ret.
  rewrite Ht. cbv beta iota. now rewrite Hp.
Qed.

Lemma binary_body_spec n w t (a b c : Vec3) MESH :
  triangles w !! n = Some t ->
  points w !! idx0 t = Some a ->
  points w !! idx1 t = Some b ->
  points w !! idx2 t = Some c ->
  binary_body n (new_Mesh, MESH) w = (Ok (new_Mesh, append_facet MESH a b c), w).
Proof.
  intros Ht Ha Hb Hc.
  destruct a as [[ax ay] az] eqn:Ea, b as [[bx by_] bz] eqn:Eb,
    c as [[cx cy] cz] eqn:Ec.
  unfold binary_body.
  do 3 (erewrite bind_ok by (eapply add_corner_ok; eauto);
        cbv beta iota zeta).
  unfold append_facet, Mesh_Append, Faces_AddFace, Vertices_Add, new_Mesh, ret.
  cbn [Vertices Faces app map shift_face].
  rewrite !length_app, <- !app_assoc. cbn [length app].
  do 4 f_equal. apply f_equal.
  repeat (apply f_equal2; [apply face_ext; lia|]). reflexivity.
Qed.

Lemma for_each_binary_body w ns :
  accs_in_range w ->
  Forall (fun n => n < length (triangles w)) ns ->
  forall MESH, exists MESH',
    for_each binary_body ns (new_Mesh, MESH) w = (Ok (new_Mesh, MESH'), w) /\
    length (Vertices MESH') = length (Vertices MESH) + 6 * length ns /\
    length (Faces MESH') = length (Faces MESH) + 6 * length ns /\
    (mesh_in_range MESH -> mesh_in_range MESH').
Proof.
  intros Hw. induction ns as [|n ns IH]; intros Hns MESH.
  - exists MESH. cbn. repeat split; auto; lia.
  - apply Forall_cons in Hns as [Hn Hns].
    destruct (lookup_lt_is_Some_2 _ _ Hn) as [t Ht].
    assert (Hin : face_below (length (points w)) t).
    { eapply Forall_forall; [exact Hw|]. eapply list_elem_of_lookup_2, Ht. }
    destruct Hin as (H0 & H1 & H2).
    destruct (lookup_lt_is_Some_2 _ _ H0) as [a Ha].
    destruct (lookup_lt_is_Some_2 _ _ H1) as [b Hb].
    destruct (lookup_lt_is_Some_2 _ _ H2) as [c Hc].
    destruct (IH Hns (append_facet MESH a b c)) as (M' & E & HV & HF & Hr).
    exists M'. cbn [for_each].
    erewrite bind_ok by (eapply binary_body_spec; eassumption).
    split; [exact E|].
    unfold append_facet in HV, HF; cbn [Vertices Faces] in HV, HF.
    rewrite length_app in HV, HF. cbn [length] in *.
    repeat split; try lia.
    intros Hm. now apply Hr, append_facet_in_range.
Qed.

Lemma buildBinary_not_stl name w :
  is_stl_name name = false -> buildBinary name w = (Ok tt, w).
Proof. intros H. unfold buildBinary. now rewrite H. Qed.

Lemma buildBinary_spec name w :
  is_stl_name name = true -> accs_in_range w ->
  exists MESH,
    buildBinary name w = doc_AddMesh name MESH w /\
    length (Vertices MESH) = 6 * length (triangles w) /\
    length (Faces MESH) = 6 * length (triangles w) /\
    mesh_in_range MESH.
Proof.
  intros Hn Hw. unfold buildBinary. rewrite Hn. cbn [negb].
  destruct (for_each_binary_body w (seq 0 (length (triangles w))) Hw)
    with (MESH := new_Mesh) as (M' & E & HV & HF & Hr).
  { apply Forall_forall. intros n Hin%elem_of_seq. lia. }
  exists M'. unfold bind, len_triangles. rewrite E.
  rewrite length_seq in HV, HF. cbn in HV, HF.
  repeat split; try lia. apply Hr. constructor.
Qed.

(** *** What each statement leaves untouched *)

Ltac keeps_primitive :=
  unfold keeps, log, normals_append, points_append, triangles_append,
    bytecount_append, len_points, len_triangles, points_at, triangles_at,
    reset_accumulators, doc_AddMesh;
  intros [? ? ? ? ? ?]; cbn;
  repeat match goal with
         | |- context [match ?x with _ => _ end] => destruct x
         end;
  reflexivity.

Create HintDb keeps.

Ltac keeps_step :=
  first
    [ apply keeps_ret | apply keeps_raise | apply keeps_out_of_fuel
    | solve [auto with keeps]
    | apply keeps_bind; [| intros ?]
    | apply keeps_try_except
    | apply keeps_for_each; intros ? ?
    | match goal with
      | |- keeps _ (match ?x with _ => _ end) => destruct x
      end
    | solve [keeps_primitive] ].

Ltac keeps_auto := repeat keeps_step.

Lemma keeps_with_open {X A} (proj : world -> X) fs name (body : file -> M A) :
  (forall e, keeps proj (log e)) ->
  (forall f, keeps proj (body f)) ->
  keeps proj (with_open fs name body).
Proof.
  intros Hl Hb. unfold with_open, open_file.
  destruct (fs name) as [d|]; [|keeps_auto].
  apply keeps_bind; [apply keeps_bind; [apply Hl | intros; apply keeps_ret]|].
  intros f w. specialize (Hb f w).
  destruct (body f w) as [r u]. cbn [snd] in *.
  rewrite <- Hb. apply (Hl (EvClose name) u).
Qed.

Lemma keeps_accs_log e : keeps accs (log e).
Proof. keeps_primitive. Qed.

Lemma keeps_accs_is_binary fs name : keeps accs (is_binary fs name).
Proof.
  unfold is_binary. destruct (negb (is_stl_name name)); [keeps_auto|].
  apply keeps_with_open; [apply keeps_accs_log | intros; keeps_auto].
Qed.

Section KeepsAscii.

Context {X : Type} (proj : world -> X) (fos : pystr -> option Z).

Lemma keeps_floats_of toks : keeps proj (floats_of fos toks).
Proof.
  induction toks as [|x toks IH]; cbn [floats_of]; [keeps_auto|].
  destruct (fos x); [|keeps_auto].
  apply keeps_bind; [exact IH | intros; keeps_auto].
Qed.

Lemma keeps_item q i : keeps proj (item q i).
Proof. unfold item. keeps_auto. Qed.

Lemma keeps_ascii_body line s : keeps proj (ascii_body fos line s).
Proof.
  unfold ascii_body. destruct s as [temp_mesh MESH].
  apply keeps_bind.
  - destruct (str_in (py "vertex") line); [|keeps_auto].
    apply keeps_bind; [apply keeps_floats_of|]. intros q.
    repeat (apply keeps_bind; [apply keeps_item | intros ?]). keeps_auto.
  - intros t. keeps_auto.
Qed.

Lemma keeps_for_each_ascii_body lines s :
  keeps proj (for_each (ascii_body fos) lines s).
Proof. apply keeps_for_each. intros. apply keeps_ascii_body. Qed.

End KeepsAscii.

Lemma keeps_accs_meshAdder fs fos name : keeps accs (meshAdder fs fos name).
Proof.
  unfold meshAdder. destruct (negb (is_stl_name name)); [keeps_auto|].
  apply keeps_bind.
  - apply keeps_with_open; [apply keeps_accs_log|].
    intros f. apply keeps_for_each_ascii_body.
  - intros [t m]. keeps_auto.
Qed.

(** The loop of the ASCII path touches nothing of the world. *)
Lemma for_each_ascii_body_world fos lines s w :
  snd (for_each (ascii_body fos) lines s w) = w.
Proof. apply (keeps_for_each_ascii_body (fun w => w)). Qed.

Lemma keeps_trace_st_unpack sig s : keeps trace (st_unpack sig s).
Proof. unfold st_unpack. keeps_auto. Qed.

#[local] Hint Resolve keeps_trace_st_unpack : keeps.

Lemma keeps_trace_unpack f sig l : keeps trace (unpack f sig l).
Proof. unfold unpack, f_read. keeps_auto. Qed.

#[local] Hint Resolve keeps_trace_unpack : keeps.

Lemma keeps_trace_read_triangle f : keeps trace (read_triangle f).
Proof. unfold read_triangle. keeps_auto. Qed.

#[local] Hint Resolve keeps_trace_read_triangle : keeps.

Lemma keeps_trace_while fuel :
  forall f, keeps trace (while_True_read_triangle fuel f).
Proof.
  induction fuel as [|fuel IH]; intros f; cbn [while_True_read_triangle];
    keeps_auto.
Qed.

Lemma keeps_trace_read_length f : keeps trace (read_length f).
Proof. unfold read_length, f_read. keeps_auto. Qed.

Lemma keeps_trace_buildBinary name : keeps trace (buildBinary name).
Proof. unfold buildBinary, binary_body, add_corner. keeps_auto. Qed.

#[local] Hint Resolve keeps_trace_while keeps_trace_read_length
  keeps_trace_buildBinary : keeps.

(** ** Which files are closed *)

(** A file opened by [with] is closed when the block is left, whatever the
    outcome of the block. *)
Lemma with_open_trace {A} fs name (body : file -> M A) w :
  (forall f, keeps trace (body f)) ->
  trace (snd (with_open fs name body w))
  = trace w ++ match fs name with
               | Some _ => [EvOpen name; EvClose name]
               | None => []
               end.
Proof.
  intros Hb. unfold with_open, open_file.
  destruct (fs name) as [d|]; [|cbn; now rewrite app_nil_r].
  unfold bind, log, ret. cbn.
  match goal with |- context [body ?f ?u] =>
    specialize (Hb f u); destruct (body f u) as [r u'] end.
  cbn in *. rewrite Hb. now rewrite <- app_assoc.
Qed.

Lemma is_binary_trace fs name w :
  trace (snd (is_binary fs name w))
  = trace w ++ (if is_stl_name name then
                  match fs name with
                  | Some _ => [EvOpen name; EvClose name]
                  | None => []
                  end
                else []).
Proof.
  unfold is_binary. destruct (is_stl_name name); cbn [negb].
  - apply with_open_trace. intros f. keeps_auto.
  - cbn. now rewrite app_nil_r.
Qed.

Lemma meshAdder_trace fs fos name w :
  trace (snd (meshAdder fs fos name w))
  = trace w ++ (if is_stl_name name then
                  match fs name with
                  | Some _ => [EvOpen name; EvClose name]
                  | None => []
                  end
                else []).
Proof.
  unfold meshAdder. destruct (is_stl_name name); cbn [negb].
  - unfold bind.
    pose proof (with_open_trace fs name
      (fun f => for_each (ascii_body fos) (file_lines (data f))
                         (new_Mesh, new_Mesh)) w
      (fun f => keeps_for_each_ascii_body trace fos _ _)) as H.
    fold (decodeAscii fs fos name) in H.
    destruct (decodeAscii fs fos name w) as [[[t m]| |] u]; exact H.
  - cbn. now rewrite app_nil_r.
Qed.

(** ** The binary path *)

Lemma drop_header {A} (h c body : list A) :
  length h = 80 -> length c = 4 -> drop 84 (h ++ c ++ body) = body.
Proof.
  intros Hh Hc. rewrite app_assoc.
  apply drop_app_length'. rewrite length_app. lia.
Qed.

Lemma decodeBinary_layout fs name h c body w :
  fs name = Some (h ++ c ++ body) -> length h = 80 -> length c = 4 ->
  decodeBinary fs name w
  = (Ok tt, add_facets (length body / 50) body (opened name w)).
Proof.
  intros Hfs Hh Hc. rewrite (decodeBinary_spec fs name _ w Hfs).
  - rewrite drop_header by assumption. rewrite !length_app.
    now replace (length h + (length c + length body) - 84)
      with (length body) by lia.
  - rewrite !length_app. lia.
Qed.

Lemma empty_accumulators_in_range w : empty_accumulators w -> accs_in_range w.
Proof.
  unfold empty_accumulators, accs, accs_in_range. intros [= _ _ -> _].
  constructor.
Qed.

Lemma opened_in_range name w : accs_in_range w -> accs_in_range (opened name w).
Proof. exact id. Qed.

(** Whatever the file, [meshBinaryAdder] adds to the document only meshes
    whose indices are in range, and never runs out of fuel. *)
Lemma meshBinaryAdder_doc fs name w :
  accs_in_range w ->
  fst (meshBinaryAdder fs name w) <> OutOfFuel /\
  exists new,
    doc (snd (meshBinaryAdder fs name w)) = doc w ++ new /\
    Forall (fun e => mesh_in_range (snd e)) new.
Proof.
  intros Hw. unfold meshBinaryAdder.
  destruct (fs name) as [d|] eqn:Hfs.
  - destruct (le_lt_dec 84 (length d)) as [Hlen|Hlen].
    + erewrite bind_ok by (eapply decodeBinary_spec; eassumption).
      set (w1 := add_facets _ _ _).
      assert (Hd : doc w1 = doc w)
        by (unfold w1; now rewrite (proj2 (add_facets_trace _ _ _))).
      assert (Hw1 : accs_in_range w1)
        by (apply add_facets_in_range, opened_in_range, Hw).
      destruct (is_stl_name name) eqn:Hn.
      * destruct (buildBinary_spec name w1 Hn Hw1) as (MESH & -> & _ & _ & Hr).
        unfold doc_AddMesh. cbn [fst snd doc].
        split; [discriminate|]. exists [(name, MESH)].
        rewrite Hd. split; [reflexivity|]. now constructor.
      * rewrite (buildBinary_not_stl name w1 Hn). cbn [fst snd].
        split; [discriminate|]. exists []. now rewrite Hd, app_nil_r.
    + erewrite bind_raise by (eapply decodeBinary_no_count; eassumption).
      cbn. split; [discriminate|]. exists []. now rewrite app_nil_r.
  - erewrite bind_raise by (apply decodeBinary_missing; assumption).
    cbn. split; [discriminate|]. exists []. now rewrite app_nil_r.
Qed.

Lemma meshBinaryAdder_fuel_enough fs name w :
  accs_in_range w -> fst (meshBinaryAdder fs name w) <> OutOfFuel.
Proof. intros Hw. apply meshBinaryAdder_doc, Hw. Qed.

(** For a file of [n] complete facets the accumulators hold [n] facets with
    flat triangles, and the combined mesh has six vertices and six faces for
    each of them. *)
Lemma binary_mesh_counts fs name h c body n w :
  fs name = Some (h ++ c ++ body) -> length h = 80 -> length c = 4 ->
  length body = 50 * n -> is_stl_name name = true -> empty_accumulators w ->
  exists w1 MESH,
    decodeBinary fs name w = (Ok tt, w1) /\
    length (normals w1) = n /\ length (points w1) = 3 * n /\
    triangles w1 = map flat_triangle (seq 0 n) /\
    meshBinaryAdder fs name w = doc_AddMesh name MESH w1 /\
    length (Vertices MESH) = 6 * n /\ length (Faces MESH) = 6 * n.
Proof.
  intros Hfs Hh Hc Hb Hn Hw.
  pose proof (decodeBinary_layout fs name h c body w Hfs Hh Hc) as E.
  replace (length body / 50) with n in E
    by (rewrite Hb, Nat.mul_comm, Nat.div_mul; lia).
  destruct (add_facets_lengths n body (opened name w)) as (Ln & Lp & Lt & _).
  pose proof (add_facets_triangles n body (opened name w)) as Et.
  assert (Hw1 : accs_in_range (add_facets n body (opened name w)))
    by (apply add_facets_in_range, opened_in_range,
          empty_accumulators_in_range, Hw).
  remember (add_facets n body (opened name w)) as w1 eqn:Ew1.
  destruct (buildBinary_spec name w1 Hn Hw1) as (MESH & Eb & HV & HF & _).
  unfold empty_accumulators, accs in Hw. injection Hw as Hwn Hwp Hwt Hwb.
  cbn [opened normals points triangles] in Ln, Lp, Lt, Et.
  rewrite Hwn in Ln. rewrite Hwp in Lp, Et. rewrite Hwt in Lt, Et.
  cbn [length app] in Ln, Lp, Lt, Et.
  exists w1, MESH. repeat split; try assumption; try lia.
  unfold meshBinaryAdder. now erewrite bind_ok by exact E.
Qed.

Lemma bind_keeps {X A B} (proj : world -> X) (m : M A) (k : A -> M B) w :
  (forall a, keeps proj (k a)) ->
  proj (snd (bind m k w)) = proj (snd (m w)).
Proof.
  intros Hk. unfold bind.
  destruct (m w) as [[a| |] w1]; cbn [snd]; [apply Hk | reflexivity..].
Qed.

Lemma decodeBinary_trace fs name w :
  trace (snd (decodeBinary fs name w))
  = trace w ++ match fs name with Some _ => [EvOpen name] | None => [] end.
Proof.
  unfold decodeBinary. rewrite bind_keeps.
  - unfold open_file. destruct (fs name); cbn; [reflexivity|].
    now rewrite app_nil_r.
  - intros f. unfold read_header. keeps_auto.
Qed.

(** C1 (as the code has it).  On the specification's binary scenario, two
    facets, the accumulators are as the claim says: six points and the
    triangles (0,1,2), (3,4,5).  The combined mesh handed to the document is
    not: [temp_mesh] is appended after each corner, so the mesh has twelve
    vertices and twelve faces instead of six and two. *)
Theorem C1_combined_mesh_has_six_vertices_per_facet :
  let run := meshBinaryAdder (single_file a_stl two_facets) a_stl initial_world in
  fst run = Ok tt /\
  length (normals (snd run)) = 2 /\
  points (snd run)
  = [(f0, f0, f0); (f1, f0, f0); (f0, f1, f0);
     (f1, f1, f1); (f2, f1, f1); (f1, f2, f1)] /\
  triangles (snd run) = [(0, 1, 2); (3, 4, 5)] /\
  exists MESH,
    doc (snd run) = [(a_stl, MESH)] /\
    Vertices MESH
    = [(f0, f0, f0); (f0, f0, f0); (f1, f0, f0);
       (f0, f0, f0); (f1, f0, f0); (f0, f1, f0);
       (f1, f1, f1); (f1, f1, f1); (f2, f1, f1);
       (f1, f1, f1); (f2, f1, f1); (f1, f2, f1)] /\
    Faces MESH
    = [(0, 1, 2); (1, 2, 3); (1, 2, 3); (3, 4, 5); (3, 4, 5); (3, 4, 5);
       (6, 7, 8); (7, 8, 9); (7, 8, 9); (9, 10, 11); (9, 10, 11); (9, 10, 11)].
Proof.
  vm_compute. repeat split. eexists. repeat split.
Qed.

(** C2.  A binary file whose body after the 84 bytes of header and count has
    [length body] bytes decodes, without an error, to exactly
    [length body / 50] facets; the accumulators are those obtained from the
    file cut after its last complete facet, so the bytes of a partial facet
    add nothing; and [meshBinaryAdder] as a whole returns normally. *)
Theorem C2_truncated_binary_keeps_complete_facets
    fs fs' name h c body w :
  fs name = Some (h ++ c ++ body) ->
  fs' name = Some (h ++ c ++ take (50 * (length body / 50)) body) ->
  length h = 80 -> length c = 4 -> empty_accumulators w ->
  let w1 := snd (decodeBinary fs name w) in
  fst (decodeBinary fs name w) = Ok tt /\
  length (normals w1) = length body / 50 /\
  length (points w1) = 3 * (length body / 50) /\
  length (triangles w1) = length body / 50 /\
  length (bytecount w1) = length body / 50 /\
  accs w1 = accs (snd (decodeBinary fs' name w)) /\
  fst (meshBinaryAdder fs name w) = Ok tt.
Proof.
  intros Hfs Hfs' Hh Hc Hw.
  pose proof (decodeBinary_layout fs name h c body w Hfs Hh Hc) as E.
  pose proof (decodeBinary_layout fs' name h c _ w Hfs' Hh Hc) as E'.
  assert (Hdiv : 50 * (length body / 50) <= length body)
    by (apply Nat.Div0.mul_div_le).
  rewrite length_take in E'.
  replace ((50 * (length body / 50)) `min` length body)
    with ((length body / 50) * 50) in E' by lia.
  rewrite Nat.div_mul in E' by lia.
  rewrite add_facets_take in E' by lia.
  cbv zeta. rewrite E, E'. cbn [fst snd].
  destruct (add_facets_lengths (length body / 50) body (opened name w))
    as (Ln & Lp & Lt & Lb).
  pose proof Hw as Hw'. unfold empty_accumulators, accs in Hw'.
  injection Hw' as Hwn Hwp Hwt Hwb.
  cbn [opened normals points triangles bytecount] in Ln, Lp, Lt, Lb.
  rewrite Hwn in Ln. rewrite Hwp in Lp. rewrite Hwt in Lt. rewrite Hwb in Lb.
  repeat split; try assumption.
  unfold meshBinaryAdder. erewrite bind_ok by exact E.
  assert (Hr : accs_in_range (add_facets (length body / 50) body (opened name w)))
    by (apply add_facets_in_range, opened_in_range,
          empty_accumulators_in_range, Hw).
  destruct (is_stl_name name) eqn:Hn.
  - destruct (buildBinary_spec name _ Hn Hr) as (MESH & -> & _). reflexivity.
  - now rewrite buildBinary_not_stl.
Qed.

(** C5.  Two files that differ only in the four bytes of the count field
    decode alike: same outcome, same accumulators, same mesh; the outcome is
    a normal return, so no mismatch is reported. *)
Theorem C5_count_field_is_ignored fs1 fs2 name h c1 c2 body w :
  fs1 name = Some (h ++ c1 ++ body) ->
  fs2 name = Some (h ++ c2 ++ body) ->
  length h = 80 -> length c1 = 4 -> length c2 = 4 ->
  decodeBinary fs1 name w = decodeBinary fs2 name w /\
  fst (decodeBinary fs1 name w) = Ok tt /\
  meshBinaryAdder fs1 name w = meshBinaryAdder fs2 name w.
Proof.
  intros H1 H2 Hh Hc1 Hc2.
  pose proof (decodeBinary_layout fs1 name h c1 body w H1 Hh Hc1) as E1.
  pose proof (decodeBinary_layout fs2 name h c2 body w H2 Hh Hc2) as E2.
  repeat split.
  - now rewrite E1, E2.
  - now rewrite E1.
  - unfold meshBinaryAdder, bind. now rewrite E1, E2.
Qed.

(** C9 (as the code has it).  [meshBinaryAdder] opens its file with a plain
    [open] and never closes it: whatever the outcome, the only event it adds
    for a file that can be opened is the opening.  In a batch over the
    two-facet file the sniffer's handle is closed and the decoder's is not. *)
Theorem C9_binary_decoder_never_closes_its_file :
  (forall fs name w,
     trace (snd (meshBinaryAdder fs name w))
     = trace w ++ match fs name with
                  | Some _ => [EvOpen name]
                  | None => []
                  end) /\
  trace (snd (batch (single_file a_stl two_facets) (fun _ => None) [a_stl]
                initial_world))
  = [EvOpen a_stl; EvClose a_stl; EvOpen a_stl].
Proof.
  split; [|vm_compute; reflexivity].
  intros fs name w. unfold meshBinaryAdder.
  rewrite bind_keeps by (intros; apply keeps_trace_buildBinary).
  apply decodeBinary_trace.
Qed.

(** ** The ASCII path *)

Section AsciiPath.

Variable fos : pystr -> option Z.

Lemma floats_of_inv toks w :
  (exists q, floats_of fos toks w = (Ok q, w)) \/
  floats_of fos toks w = (Raise ValueError, w).
Proof.
  induction toks as [|x toks IH]; cbn [floats_of]; [left; now exists []|].
  destruct (fos x) as [v|]; [|now right].
  unfold bind. destruct IH as [[q ->] | ->]; [left; now exists (v :: q) | now right].
Qed.

Lemma floats_of_ok toks q w :
  map fos toks = map Some q -> floats_of fos toks w = (Ok q, w).
Proof.
  revert q; induction toks as [|x toks IH]; intros [|v q] H;
    try discriminate; [reflexivity|].
  cbn in H. injection H as Hx Hq. cbn [floats_of]. rewrite Hx.
  unfold bind. now rewrite (IH q Hq).
Qed.

Lemma item_inv q i w :
  (exists v, item q i w = (Ok v, w)) \/ item q i w = (Raise IndexError, w).
Proof. unfold item. destruct (q !! i) as [v|]; [left; now exists v | now right]. Qed.

(** One line: the world is untouched; a vertex line adds one vertex to
    [temp_mesh] or raises; an [endloop] line adds the face (0,1,2) to
    [temp_mesh], appends it to [MESH] and starts a new [temp_mesh]. *)
Lemma ascii_body_inv line temp MESH w :
  match ascii_body fos line (temp, MESH) w with
  | (Ok (temp', MESH'), w') =>
      w' = w /\
      exists temp1,
        (if str_in (py "vertex") line
         then exists x y z, temp1 = Vertices_Add temp x y z
         else temp1 = temp) /\
        (if str_in (py "endloop") line
         then temp' = new_Mesh /\
              MESH' = Mesh_Append MESH (Faces_AddFace temp1 0 1 2)
         else temp' = temp1 /\ MESH' = MESH)
  | (Raise e, w') =>
      w' = w /\ str_in (py "vertex") line = true /\
      (e = ValueError \/ e = IndexError)
  | (OutOfFuel, _) => False
  end.
Proof.
  unfold ascii_body.
  destruct (str_in (py "vertex") line) eqn:Hv.
  - unfold bind at 1.
    set (toks := split_ws _).
    unfold bind at 1.
    destruct (floats_of_inv toks w) as [[q ->] | ->]; [|auto].
    unfold bind at 1.
    destruct (item_inv q 0 w) as [[x ->] | ->]; [|auto].
    unfold bind at 1.
    destruct (item_inv q 1 w) as [[y ->] | ->]; [|auto].
    unfold bind at 1.
    destruct (item_inv q 2 w) as [[z ->] | ->]; [|auto].
    unfold ret at 1.
    destruct (str_in (py "endloop") line); cbn;
      (split; [reflexivity|]); eexists; split; eauto.
  - unfold bind, ret.
    destruct (str_in (py "endloop") line); cbn;
      (split; [reflexivity|]); eexists; split; eauto.
Qed.


Lemma ascii_body_endloop line temp MESH w :
  str_in (py "vertex") line = false ->
  str_in (py "endloop") line = true ->
  Faces temp = [] ->
  ascii_body fos line (temp, MESH) w
  = (Ok (new_Mesh,
         mkMesh (Vertices MESH ++ Vertices temp)
                (Faces MESH ++ [shift_face (length (Vertices MESH)) (0, 1, 2)])),
     w).
Proof.
  intros Hv He Hf. unfold ascii_body. rewrite Hv, He.
  unfold bind, ret, Mesh_Append, Faces_AddFace. cbn [Vertices Faces].
  now rewrite Hf.
Qed.

(** The whole loop. *)
Lemma for_each_ascii_body_inv lines : forall temp MESH w,
  Faces temp = [] ->
  match for_each (ascii_body fos) lines (temp, MESH) w with
  | (Ok (temp', MESH'), w') =>
      w' = w /\ Faces temp' = [] /\
      length (Faces MESH')
      = length (Faces MESH) + count_lines_with (py "endloop") lines /\
      (loops_complete (length (Vertices temp)) lines = true ->
       mesh_in_range MESH -> mesh_in_range MESH')
  | (Raise e, w') => w' = w /\ (e = ValueError \/ e = IndexError)
  | (OutOfFuel, _) => False
  end.
Proof.
  induction lines as [|line lines IH]; intros temp MESH w Hf.
  - cbn. repeat split; auto; lia.
  - cbn [for_each count_lines_with loops_complete]. unfold bind.
    pose proof (ascii_body_inv line temp MESH w) as Hb.
    destruct (ascii_body fos line (temp, MESH) w) as [[[t1 M1]|e|] w1];
      [|destruct Hb as (-> & _ & He); auto | exact Hb].
    destruct Hb as (-> & temp1 & Hv & He).
    assert (Hf1 : Faces temp1 = [])
      by (destruct (str_in (py "vertex") line);
          [destruct Hv as (x & y & z & ->); exact Hf | now subst]).
    assert (Hl1 : length (Vertices temp1)
                  = if str_in (py "vertex") line
                    then S (length (Vertices temp))
                    else length (Vertices temp)).
    { destruct (str_in (py "vertex") line); [|now subst].
      destruct Hv as (x & y & z & ->). cbn. rewrite length_app. cbn. lia. }
    rewrite <- Hl1.
    destruct (str_in (py "endloop") line).
    + destruct He as [-> ->].
      specialize (IH new_Mesh (Mesh_Append MESH (Faces_AddFace temp1 0 1 2))
                    w eq_refl).
      destruct (for_each (ascii_body fos) lines _ w) as [[[t2 M2]|e|] w2];
        [|exact IH..].
      destruct IH as (-> & Hf2 & Hn & Hr).
      unfold Mesh_Append, Faces_AddFace in Hn. cbn [Vertices Faces] in Hn.
      rewrite Hf1, length_app in Hn. cbn [map length app] in Hn.
      repeat split; auto; [lia|].
      intros Hc Hm. apply andb_true_iff in Hc as [H3 Hc].
      apply Nat.leb_le in H3. apply Hr; [exact Hc|].
      unfold mesh_in_range, Mesh_Append, Faces_AddFace. cbn [Vertices Faces].
      rewrite Hf1, length_app. apply Forall_app. split.
      * eapply Forall_impl; [exact Hm|]. unfold face_below. intros t; lia.
      * constructor; [|constructor]. unfold face_below; cbn. lia.
    + destruct He as [-> ->].
      specialize (IH temp1 MESH w Hf1).
      destruct (for_each (ascii_body fos) lines _ w) as [[[t2 M2]|e|] w2];
        [|exact IH..].
      destruct IH as (-> & Hf2 & Hn & Hr).
      repeat split; auto.
Qed.

End AsciiPath.

Lemma meshAdder_not_stl fs fos name w :
  is_stl_name name = false -> meshAdder fs fos name w = (Ok tt, w).
Proof. intros H. unfold meshAdder. now rewrite H. Qed.

Lemma meshAdder_missing fs fos name w :
  is_stl_name name = true -> fs name = None ->
  meshAdder fs fos name w = (Raise IOError, w).
Proof.
  intros Hn Hfs. unfold meshAdder, decodeAscii, with_open, open_file.
  now rewrite Hn, Hfs.
Qed.

(** What [meshAdder] does with a file it can open: it hands over one mesh
    with a face for each [endloop] line, or stops at a vertex line that
    [float] or the indexing rejects. *)
Lemma meshAdder_inv fs fos name content w :
  is_stl_name name = true -> fs name = Some content ->
  match meshAdder fs fos name w with
  | (Ok _, w') =>
      exists MESH,
        doc w' = doc w ++ [(name, MESH)] /\
        length (Faces MESH)
        = count_lines_with (py "endloop") (file_lines content) /\
        (loops_complete 0 (file_lines content) = true -> mesh_in_range MESH)
  | (Raise e, w') => doc w' = doc w /\ (e = ValueError \/ e = IndexError)
  | (OutOfFuel, _) => False
  end.
Proof.
  intros Hn Hfs. unfold meshAdder, decodeAscii, with_open, open_file.
  rewrite Hn, Hfs. cbn [negb]. unfold bind, log, ret. cbn [data].
  pose proof (for_each_ascii_body_inv fos (file_lines content) new_Mesh
                new_Mesh (opened name w) eq_refl) as H.
  unfold opened in H.
  destruct (for_each (ascii_body fos) (file_lines content) _ _)
    as [[[t M1]|e|] w1].
  - destruct H as (-> & _ & Hc & Hr). exists M1. cbn.
    repeat split; auto. intros Hl. apply Hr; [exact Hl | constructor].
  - destruct H as (-> & He). cbn. auto.
  - exact H.
Qed.


(** ** The sniffer *)

Lemma is_binary_not_stl fs name w :
  is_stl_name name = false -> is_binary fs name w = (Ok None, w).
Proof. intros H. unfold is_binary. now rewrite H. Qed.

Lemma is_binary_stl fs name content w :
  is_stl_name name = true -> fs name = Some content ->
  fst (is_binary fs name w) = Ok (Some (char_in NUL content)).
Proof.
  intros Hn Hfs. unfold is_binary, with_open, open_file.
  rewrite Hn, Hfs. cbn. now rewrite scan_blocks_file.
Qed.

Lemma is_binary_stl_not_None fs name w :
  is_stl_name name = true -> fst (is_binary fs name w) <> Ok None.
Proof.
  intros Hn. unfold is_binary, with_open, open_file. rewrite Hn.
  destruct (fs name); cbn; discriminate.
Qed.

Lemma is_stl_name_false name :
  is_stl_name name = false <-> last_component name <> py "stl".
Proof.
  rewrite <- is_stl_name_suffix. now destruct (is_stl_name name).
Qed.

(** ** The batch loop *)

Lemma batch_body_keeps_empty fs fos name w :
  empty_accumulators w ->
  fst (batch_body fs fos name w) = Ok tt ->
  empty_accumulators (snd (batch_body fs fos name w)).
Proof.
  unfold empty_accumulators. intros Hw. unfold batch_body, bind.
  pose proof (keeps_accs_is_binary fs name w) as Hk.
  destruct (is_binary fs name w) as [[b| |] w1]; cbn [fst snd] in *;
    try discriminate.
  destruct (truthy b).
  - destruct (meshBinaryAdder fs name w1) as [[[]| |] w2]; cbn;
      try discriminate. reflexivity.
  - intros _. rewrite (keeps_accs_meshAdder fs fos name w1). congruence.
Qed.

Lemma batch_keeps_empty fs fos files : forall w w',
  empty_accumulators w ->
  batch fs fos files w = (Ok tt, w') ->
  empty_accumulators w'.
Proof.
  unfold batch. induction files as [|name files IH]; intros w w' Hw H.
  - cbn in H. now injection H as <-.
  - cbn [for_each] in H. unfold bind in H.
    pose proof (batch_body_keeps_empty fs fos name w Hw) as Hb.
    destruct (batch_body fs fos name w) as [[[]| |] w1]; try discriminate.
    eapply IH; [apply Hb; reflexivity | exact H].
Qed.

Lemma initial_world_empty : empty_accumulators initial_world.
Proof. reflexivity. Qed.

(** C7.  When the files before [name] have been processed, the accumulators
    are empty again; so decoding [name] at that point has the outcome and
    leaves the accumulators that decoding it alone, from the script's initial
    state, does, and processing it adds to the document exactly what
    processing it alone adds. *)
Theorem C7_accumulators_reset_between_files fs fos before name w w1 :
  empty_accumulators w ->
  batch fs fos before w = (Ok tt, w1) ->
  empty_accumulators w1 /\
  fst (decodeBinary fs name w1) = fst (decodeBinary fs name initial_world) /\
  accs (snd (decodeBinary fs name w1))
  = accs (snd (decodeBinary fs name initial_world)) /\
  doc (snd (batch_body fs fos name w1))
  = doc w1 ++ doc (snd (batch_body fs fos name initial_world)).
Proof.
  intros Hw Hb.
  pose proof (batch_keeps_empty fs fos before w w1 Hw Hb) as H1.
  assert (Ha : accs w1 = accs initial_world)
    by (rewrite H1; reflexivity).
  split; [exact H1|].
  destruct (framed_decodeBinary fs name w1 initial_world Ha) as (Hr & Hacc & _).
  destruct (framed_batch_body fs fos name w1 initial_world Ha)
    as (_ & _ & t & d & [_ G1] & [_ G2]).
  repeat split; try assumption.
  rewrite G1, G2. reflexivity.
Qed.

(** C8.  Decoding a file from empty accumulators is repeatable: the binary
    decoder has the same outcome and leaves the same accumulators, the ASCII
    decoder returns the same meshes; and a batch that meets the same file
    twice hands the same meshes to the document twice. *)
Theorem C8_decoding_twice_gives_the_same fs fos name w1 w2 :
  empty_accumulators w1 -> empty_accumulators w2 ->
  fst (decodeBinary fs name w1) = fst (decodeBinary fs name w2) /\
  accs (snd (decodeBinary fs name w1)) = accs (snd (decodeBinary fs name w2)) /\
  fst (decodeAscii fs fos name w1) = fst (decodeAscii fs fos name w2) /\
  (forall w', batch fs fos [name; name] w1 = (Ok tt, w') ->
     exists d, doc w' = doc w1 ++ d ++ d).
Proof.
  intros H1 H2.
  assert (Ha : accs w1 = accs w2) by congruence.
  destruct (framed_decodeBinary fs name w1 w2 Ha) as (Hr & Hacc & _).
  destruct (framed_decodeAscii fs fos name w1 w2 Ha) as (Hr' & _).
  repeat split; try assumption.
  intros w' Hb. unfold batch in Hb. cbn [for_each] in Hb. unfold bind in Hb.
  pose proof (batch_body_keeps_empty fs fos name w1 H1) as Hm.
  destruct (batch_body fs fos name w1) as [[[]| |] wm] eqn:E1;
    try discriminate.
  specialize (Hm eq_refl). cbn [snd] in Hm.
  assert (Ham : accs w1 = accs wm) by congruence.
  destruct (framed_batch_body fs fos name w1 wm Ham)
    as (_ & _ & t & d & [_ G1] & [_ G2]).
  rewrite E1 in G1. cbn [snd] in G1.
  destruct (batch_body fs fos name wm) as [[[]| |] wn]; try discriminate.
  cbn in Hb. injection Hb as <-. cbn [snd] in G2.
  exists d. now rewrite G2, G1, <- app_assoc.
Qed.

(** ** Instances on the example files *)

(** The two-facet file cut after 150 bytes: one facet is decoded. *)
Lemma C2_witness :
  single_file a_stl two_facets_cut a_stl
  = Some (header80 ++ le_bytes 4 2 ++ take 66 (drop 84 two_facets)) /\
  fst (decodeBinary (single_file a_stl two_facets_cut) a_stl initial_world)
  = Ok tt /\
  length (normals (snd (decodeBinary (single_file a_stl two_facets_cut) a_stl
                          initial_world))) = 1 /\
  fst (meshBinaryAdder (single_file a_stl two_facets_cut) a_stl initial_world)
  = Ok tt.
Proof.
  assert (H1 : single_file a_stl two_facets_cut a_stl
               = Some (header80 ++ le_bytes 4 2
                       ++ take 66 (drop 84 two_facets)))
    by (vm_compute; reflexivity).
  assert (H2 : single_file a_stl (take 134 two_facets) a_stl
               = Some (header80 ++ le_bytes 4 2
                       ++ take (50 * (length (take 66 (drop 84 two_facets)) / 50))
                            (take 66 (drop 84 two_facets))))
    by (vm_compute; reflexivity).
  destruct (C2_truncated_binary_keeps_complete_facets
              (single_file a_stl two_facets_cut)
              (single_file a_stl (take 134 two_facets))
              a_stl header80 (le_bytes 4 2) (take 66 (drop 84 two_facets))
              initial_world H1 H2 eq_refl eq_refl eq_refl)
    as (R1 & R2 & _ & _ & _ & _ & R3).
  split; [exact H1|]. split; [exact R1|]. split; [exact R2 | exact R3].
Defined.


(** The two-facet file with 2 and with 7 in its count field. *)
Lemma C5_witness :
  single_file a_stl two_facets a_stl
  = Some (header80 ++ le_bytes 4 2 ++ drop 84 two_facets) /\
  single_file a_stl two_facets_count7 a_stl
  = Some (header80 ++ le_bytes 4 7 ++ drop 84 two_facets) /\
  meshBinaryAdder (single_file a_stl two_facets) a_stl initial_world
  = meshBinaryAdder (single_file a_stl two_facets_count7) a_stl initial_world.
Proof.
  assert (H1 : single_file a_stl two_facets a_stl
               = Some (header80 ++ le_bytes 4 2 ++ drop 84 two_facets))
    by (vm_compute; reflexivity).
  assert (H2 : single_file a_stl two_facets_count7 a_stl
               = Some (header80 ++ le_bytes 4 7 ++ drop 84 two_facets))
    by (vm_compute; reflexivity).
  split; [exact H1|]. split; [exact H2|].
  exact (proj2 (proj2 (C5_count_field_is_ignored
           (single_file a_stl two_facets) (single_file a_stl two_facets_count7)
           a_stl header80 (le_bytes 4 2) (le_bytes 4 7) (drop 84 two_facets)
           initial_world H1 H2 eq_refl eq_refl eq_refl))).
Defined.

(** The two-facet file processed after itself. *)
Lemma C7_witness :
  empty_accumulators initial_world /\
  fst (batch (single_file a_stl two_facets) digit_float [a_stl] initial_world)
  = Ok tt /\
  empty_accumulators
    (snd (batch (single_file a_stl two_facets) digit_float [a_stl]
            initial_world)).
Proof.
  split; [reflexivity|]. split; [vm_compute; reflexivity|].
  refine (proj1 (C7_accumulators_reset_between_files
            (single_file a_stl two_facets) digit_float [a_stl] a_stl
            initial_world _ eq_refl _)).
  vm_compute; reflexivity.
Defined.

(** The two-facet file decoded from the initial state and from the state the
    batch leaves behind. *)
Lemma C8_witness :
  empty_accumulators initial_world /\
  exists d,
    doc (snd (batch (single_file a_stl two_facets) digit_float [a_stl; a_stl]
                initial_world))
    = doc initial_world ++ d ++ d.
Proof.
  split; [reflexivity|].
  refine (proj2 (proj2 (proj2 (C8_decoding_twice_gives_the_same
            (single_file a_stl two_facets) digit_float a_stl
            initial_world initial_world eq_refl eq_refl))) _ _).
  vm_compute; reflexivity.
Defined.

(** * Further properties of the script *)

(** ** Names *)

Lemma suffix_has_no_dot s : char_in DOT (last_component s) = false.
Proof.
  induction s as [|c s IH]; [reflexivity|]. cbn [last_component].
  destruct (char_in DOT s) eqn:Hd; [exact IH|].
  destruct (ascii_eqb DOT c) eqn:Hc; [exact Hd|].
  rewrite char_in_cons, Hc, Hd. reflexivity.
Qed.

Lemma suffix_split s :
  char_in DOT s = false \/
  exists base, s = base ++ DOT :: last_component s.
Proof.
  induction s as [|c s IH]; [now left|]. cbn [last_component].
  destruct (char_in DOT s) eqn:Hd.
  - destruct IH as [IH | [base IH]]; [discriminate|].
    right. exists (c :: base). cbn. now rewrite <- IH.
  - destruct (ascii_eqb DOT c) eqn:Hc.
    + apply ascii_eqb_true in Hc. subst c. right. now exists [].
    + left. rewrite char_in_cons, Hc, Hd. reflexivity.
Qed.

Lemma suffix_app_dot base t :
  char_in DOT t = false -> last_component (base ++ DOT :: t) = t.
Proof.
  intros Ht. induction base as [|c base IH]; cbn [app last_component].
  - rewrite Ht. unfold ascii_eqb. now rewrite Ascii.eqb_refl.
  - rewrite char_in_app, char_in_cons.
    replace (ascii_eqb DOT DOT) with true by reflexivity.
    rewrite orb_true_r. exact IH.
Qed.

(** The names the script treats as STL files are the names that end in
    [.stl] and the bare name [stl]. *)
Theorem stl_names_characterised name :
  is_stl_name name = true
  <-> name = py "stl" \/ exists base, name = base ++ py ".stl".
Proof.
  rewrite is_stl_name_suffix. split.
  - intros H. destruct (suffix_split name) as [Hd | [base Hb]].
    + left. now rewrite <- (suffix_no_dot name Hd).
    + right. exists base. rewrite Hb at 1. now rewrite H.
  - intros [-> | [base ->]]; [reflexivity|].
    now apply (suffix_app_dot base (py "stl")).
Qed.

Lemma stl_names_characterised_witness :
  is_stl_name (py "part.v2.stl") = true /\ is_stl_name (py "part.STL") = false.
Proof.
  split.
  - apply (proj2 (stl_names_characterised (py "part.v2.stl"))).
    right. exists (py "part.v2"). reflexivity.
  - reflexivity.
Defined.

(** ** The layout of a facet record *)

Lemma length_le_bytes k : forall v, length (le_bytes k v) = k.
Proof. induction k as [|k IH]; intros v; cbn; [reflexivity | now rewrite IH]. Qed.

Lemma le_uint_le_bytes k : forall v,
  le_uint (le_bytes k v) = (v mod 256 ^ Z.of_nat k)%Z.
Proof.
  induction k as [|k IH]; intros v.
  - cbn. now rewrite Z.mod_1_r.
  - cbn [le_bytes le_uint fold_right]. fold (le_uint (le_bytes k (v / 256))).
    rewrite IH, nat_ascii_embedding.
    + rewrite Z2Nat.id by (apply Z.mod_pos_bound; lia).
      rewrite Nat2Z.inj_succ, Z.pow_succ_r by lia.
      rewrite Z.rem_mul_r by lia. reflexivity.
    + pose proof (Z.mod_pos_bound v 256 ltac:(lia)). lia.
Qed.

Lemma le_uint_f32 x : is_f32 x -> le_uint (le_bytes 4 x) = x.
Proof.
  intros [H _]. rewrite le_uint_le_bytes. apply Z.mod_small. exact H.
Qed.

Lemma le_sint_int16 x : is_int16 x -> le_sint 16 (le_bytes 2 x) = x.
Proof.
  unfold is_int16, le_sint. intros H. rewrite le_uint_le_bytes.
  change (256 ^ Z.of_nat 2)%Z with 65536%Z.
  change (2 ^ (16 - 1))%Z with 32768%Z. change (2 ^ 16)%Z with 65536%Z.
  change (2 ^ 15)%Z with 32768%Z in H.
  destruct (Z_lt_le_dec x 0) as [Hn|Hp].
  - replace (x mod 65536)%Z with (x + 65536)%Z
      by (apply Z.mod_unique with (q := (-1)%Z); lia).
    destruct (Z.ltb_spec (x + 65536) 32768); lia.
  - rewrite Z.mod_small by lia.
    destruct (Z.ltb_spec x 32768); lia.
Qed.

Lemma length_vec3_bytes v : length (vec3_bytes v) = 12.
Proof.
  destruct v as [[x y] z]. unfold vec3_bytes.
  now rewrite !length_app, !length_le_bytes.
Qed.

Lemma vec3_of_vec3_bytes v rest :
  is_vec3 v -> vec3_of (take 12 (vec3_bytes v ++ rest)) = v.
Proof.
  destruct v as [[x y] z]. intros (Hx & Hy & Hz).
  rewrite take_app_length' by (now rewrite length_vec3_bytes).
  unfold vec3_of, vec3_bytes.
  rewrite (take_app_length' _ _ 4) by (now rewrite length_le_bytes).
  rewrite (drop_app_length' _ _ 4) by (now rewrite length_le_bytes).
  rewrite (take_app_length' _ _ 4) by (now rewrite length_le_bytes).
  replace 8 with (4 + 4) by reflexivity. rewrite <- drop_drop.
  rewrite (drop_app_length' _ _ 4) by (now rewrite length_le_bytes).
  rewrite (drop_app_length' _ _ 4) by (now rewrite length_le_bytes).
  rewrite take_ge by (rewrite length_le_bytes; lia).
  now rewrite !le_uint_f32.
Qed.

Lemma length_facet_record n a b c attr : length (facet_record n a b c attr) = 50.
Proof.
  unfold facet_record.
  now rewrite !length_app, !length_vec3_bytes, length_le_bytes.
Qed.

(** [read_triangle] reads the binary STL facet layout: when the bytes at the
    file position are the little-endian record of a normal, three corners
    and a signed 16-bit attribute count, and no coordinate is a NaN, exactly
    these values are appended to the accumulators, the triangle indexes the
    three new points, and the position advances by 50. *)
Theorem read_triangle_decodes_facet_record f w n a b c attr rest :
  drop (pos f) (data f) = facet_record n a b c attr ++ rest ->
  is_vec3 n -> is_vec3 a -> is_vec3 b -> is_vec3 c -> is_int16 attr ->
  read_triangle f w
  = (Ok (f_skip f 50),
     mkWorld (normals w ++ [n]) (points w ++ [a; b; c])
             (triangles w
              ++ [(length (points w), length (points w) + 1,
                   length (points w) + 2)])
             (bytecount w ++ [attr]) (trace w) (doc w)).
Proof.
  intros Hd Hn Ha Hb Hc Hattr.
  assert (Hlen : pos f + 50 <= length (data f)).
  { pose proof (f_equal length Hd) as HL.
    rewrite length_drop, length_app, length_facet_record in HL. lia. }
  rewrite (read_triangle_ok f w Hlen), Hd.
  rewrite take_app_length' by (now rewrite length_facet_record).
  unfold push_facet, facet_record. repeat f_equal.
  - now apply vec3_of_vec3_bytes.
  - rewrite (drop_app_length' _ _ 12) by (now rewrite length_vec3_bytes).
    now apply vec3_of_vec3_bytes.
  - replace 24 with (12 + 12) by reflexivity. rewrite <- drop_drop.
    rewrite !(drop_app_length' _ _ 12) by (now rewrite length_vec3_bytes).
    now apply vec3_of_vec3_bytes.
  - replace 36 with (12 + (12 + 12)) by reflexivity. rewrite <- !drop_drop.
    rewrite !(drop_app_length' _ _ 12) by (now rewrite length_vec3_bytes).
    rewrite <- (app_nil_r (le_bytes 2 attr)).
    now apply vec3_of_vec3_bytes.
  - replace 48 with (12 + (12 + (12 + 12))) by reflexivity.
    rewrite <- !drop_drop.
    rewrite !(drop_app_length' _ _ 12) by (now rewrite length_vec3_bytes).
    rewrite take_ge by (rewrite length_le_bytes; lia).
    now apply le_sint_int16.
Qed.

Lemma read_triangle_decodes_facet_record_witness :
  read_triangle (mkFile a_stl two_facets 84) initial_world
  = (Ok (mkFile a_stl two_facets 134),
     mkWorld [(f0, f0, f1)] [(f0, f0, f0); (f1, f0, f0); (f0, f1, f0)]
             [(0, 1, 2)] [0%Z] [] []).
Proof.
  refine (read_triangle_decodes_facet_record
            (mkFile a_stl two_facets 84) initial_world
            (f0, f0, f1) (f0, f0, f0) (f1, f0, f0) (f0, f1, f0) 0
            (facet_record (f0, f0, f1) (f1, f1, f1) (f2, f1, f1) (f1, f2, f1) 0)
            _ _ _ _ _ _);
    try (vm_compute; reflexivity);
    unfold is_vec3, is_f32, is_int16, f0, f1, f2;
    repeat split; try lia; vm_compute; discriminate.
Defined.

(** ** The accumulators *)

Lemma keeps_accs_buildBinary name : keeps accs (buildBinary name).
Proof. unfold buildBinary, binary_body, add_corner. keeps_auto. Qed.

Lemma push_facet_aligned rec w :
  accumulators_aligned w -> accumulators_aligned (push_facet rec w).
Proof.
  unfold accumulators_aligned, push_facet;
    cbn [normals points triangles bytecount].
  rewrite !length_app. cbn [length]. lia.
Qed.

Lemma add_facets_aligned n : forall body w,
  accumulators_aligned w -> accumulators_aligned (add_facets n body w).
Proof.
  induction n as [|n IH]; intros body w H; cbn [add_facets]; [exact H|].
  now apply IH, push_facet_aligned.
Qed.

(** Whatever the file and whatever the outcome, a call of [meshBinaryAdder]
    leaves the four accumulators describing the same number of facets, three
    points for each, with every triangle indexing existing points. *)
Theorem meshBinaryAdder_keeps_accumulators_aligned fs name w :
  accumulators_aligned w -> accs_in_range w ->
  accumulators_aligned (snd (meshBinaryAdder fs name w)) /\
  accs_in_range (snd (meshBinaryAdder fs name w)).
Proof.
  intros Ha Hr.
  assert (E : accs (snd (meshBinaryAdder fs name w))
              = accs (snd (decodeBinary fs name w))).
  { unfold meshBinaryAdder. apply bind_keeps. intros. apply keeps_accs_buildBinary. }
  assert (H : accumulators_aligned (snd (decodeBinary fs name w)) /\
              accs_in_range (snd (decodeBinary fs name w))).
  { destruct (fs name) as [d|] eqn:Hfs.
    - destruct (le_lt_dec 84 (length d)) as [Hlen|Hlen].
      + rewrite (decodeBinary_spec fs name d w Hfs Hlen). cbn [snd]. split.
        * now apply add_facets_aligned.
        * now apply add_facets_in_range.
      + rewrite (decodeBinary_no_count fs name d w Hfs Hlen). now split.
    - rewrite (decodeBinary_missing fs name w Hfs). now split. }
  unfold accs in E. injection E as En Ep Et Eb.
  unfold accumulators_aligned, accs_in_range in *.
  now rewrite En, Ep, Et, Eb.
Qed.

Lemma meshBinaryAdder_keeps_accumulators_aligned_witness :
  accumulators_aligned
    (snd (meshBinaryAdder (single_file a_stl two_facets_cut) a_stl
            initial_world)).
Proof.
  refine (proj1 (meshBinaryAdder_keeps_accumulators_aligned
                   (single_file a_stl two_facets_cut) a_stl initial_world _ _)).
  - unfold accumulators_aligned. cbn. lia.
  - constructor.
Defined.

(** The combined mesh is built from every triangle in the accumulators, those
    found there on entry included: six vertices and six faces for each.  A
    call that did not start from empty accumulators would put the facets of
    earlier files into this file's mesh. *)
Theorem meshBinaryAdder_builds_from_all_accumulated fs name h c body w :
  fs name = Some (h ++ c ++ body) -> length h = 80 -> length c = 4 ->
  is_stl_name name = true -> accs_in_range w ->
  exists MESH,
    fst (meshBinaryAdder fs name w) = Ok tt /\
    doc (snd (meshBinaryAdder fs name w)) = doc w ++ [(name, MESH)] /\
    length (Vertices MESH) = 6 * (length (triangles w) + length body / 50) /\
    length (Faces MESH) = 6 * (length (triangles w) + length body / 50).
Proof.
  intros Hfs Hh Hc Hn Hw.
  pose proof (decodeBinary_layout fs name h c body w Hfs Hh Hc) as E.
  destruct (add_facets_lengths (length body / 50) body (opened name w))
    as (_ & _ & Lt & _).
  destruct (add_facets_trace (length body / 50) body (opened name w))
    as [_ Hd].
  assert (Hr : accs_in_range (add_facets (length body / 50) body (opened name w)))
    by now apply add_facets_in_range.
  remember (add_facets (length body / 50) body (opened name w)) as w1.
  destruct (buildBinary_spec name w1 Hn Hr) as (MESH & Eb & HV & HF & _).
  exists MESH. unfold meshBinaryAdder. erewrite bind_ok by exact E.
  rewrite Eb. unfold doc_AddMesh. cbn [fst snd doc].
  cbn [opened triangles doc] in Lt, Hd. rewrite Hd.
  repeat split; lia.
Qed.

Lemma meshBinaryAdder_builds_from_all_accumulated_witness :
  exists MESH,
    doc (snd (meshBinaryAdder (single_file a_stl two_facets) a_stl
                (snd (decodeBinary (single_file a_stl two_facets) a_stl
                        initial_world))))
    = [(a_stl, MESH)] /\ length (Vertices MESH) = 24.
Proof.
  destruct (meshBinaryAdder_builds_from_all_accumulated
              (single_file a_stl two_facets) a_stl header80 (le_bytes 4 2)
              (drop 84 two_facets)
              (snd (decodeBinary (single_file a_stl two_facets) a_stl
                      initial_world)))
    as (MESH & _ & Hd & HV & _);
    try (vm_compute; reflexivity).
  - vm_compute. repeat constructor.
  - exists MESH. split; [exact Hd | exact HV].
Defined.

(** ** Files the batch cannot finish *)

Lemma is_binary_stl_world fs name content w :
  is_stl_name name = true -> fs name = Some content ->
  is_binary fs name w
  = (Ok (Some (char_in NUL content)),
     mkWorld (normals w) (points w) (triangles w) (bytecount w)
             (trace w ++ [EvOpen name; EvClose name]) (doc w)).
Proof.
  intros Hn Hfs. unfold is_binary, with_open, open_file.
  rewrite Hn, Hfs. cbn. rewrite scan_blocks_file, <- app_assoc. reflexivity.
Qed.

(** [read_length] is outside the [try]: a binary file (one with a NUL byte)
    shorter than the 84 bytes of header and count makes the whole batch stop
    with struct.error.  Nothing is handed to the document for it, the files
    listed after it are not looked at, and its handle is left open. *)
Theorem short_binary_file_stops_the_batch fs fos name d rest w :
  is_stl_name name = true -> fs name = Some d ->
  In NUL d -> length d < 84 ->
  batch fs fos (name :: rest) w
  = (Raise StructError,
     mkWorld (normals w) (points w) (triangles w) (bytecount w)
             (trace w ++ [EvOpen name; EvClose name; EvOpen name]) (doc w)).
Proof.
  intros Hn Hfs Hnul Hlen. unfold batch. cbn [for_each].
  apply bind_raise. unfold batch_body.
  erewrite bind_ok by (apply is_binary_stl_world; eassumption).
  apply char_in_true in Hnul. rewrite Hnul. cbn [truthy].
  apply bind_raise. unfold meshBinaryAdder. apply bind_raise.
  rewrite (decodeBinary_no_count fs name d _ Hfs Hlen).
  unfold opened. cbn. now rewrite <- app_assoc.
Qed.

Lemma short_binary_file_stops_the_batch_witness :
  fst (batch (single_file a_stl header80) digit_float [a_stl; a_stl]
         initial_world)
  = Raise StructError.
Proof.
  refine (f_equal fst (short_binary_file_stops_the_batch
            (single_file a_stl header80) digit_float a_stl header80 [a_stl]
            initial_world eq_refl eq_refl _ _)).
  - left. reflexivity.
  - vm_compute. lia.
Defined.

(** ** The ASCII decoder, line by line *)

Section AsciiLines.

Variable fos : pystr -> option Z.

Lemma floats_of_Ok_inv toks : forall q w w',
  floats_of fos toks w = (Ok q, w') -> map fos toks = map Some q.
Proof.
  induction toks as [|x toks IH]; intros q w w' H; cbn [floats_of] in H.
  - injection H as <- _. reflexivity.
  - destruct (fos x) as [v|] eqn:Hx; [|discriminate].
    unfold bind in H.
    destruct (floats_of fos toks w) as [[q'| |] u] eqn:E; try discriminate.
    injection H as <- _. cbn. rewrite Hx. f_equal. eapply IH, E.
Qed.

Lemma floats_of_rejected toks w t :
  In t toks -> fos t = None ->
  floats_of fos toks w = (Raise ValueError, w).
Proof.
  intros Hin Ht. destruct (floats_of_inv fos toks w) as [[q E] | E];
    [|exact E].
  apply floats_of_Ok_inv in E. exfalso.
  apply (in_map fos) in Hin. rewrite E, Ht in Hin.
  apply in_map_iff in Hin as (v & Hv & _). discriminate.
Qed.

(** The loop of [meshAdder] written out for a file that can be opened. *)
Lemma meshAdder_unfold fs name content w :
  is_stl_name name = true -> fs name = Some content ->
  meshAdder fs fos name w
  = match fst (for_each (ascii_body fos) (file_lines content)
                 (new_Mesh, new_Mesh) (opened name w)) with
    | Ok (_, MESH) =>
        (Ok tt,
         mkWorld (normals w) (points w) (triangles w) (bytecount w)
                 (trace w ++ [EvOpen name; EvClose name])
                 (doc w ++ [(name, MESH)]))
    | Raise e => (Raise e, closed_after name w)
    | OutOfFuel => (OutOfFuel, closed_after name w)
    end.
Proof.
  intros Hn Hfs. unfold meshAdder, decodeAscii, with_open, open_file.
  rewrite Hn, Hfs. cbn [negb]. unfold bind, log, ret. cbn [data].
  fold (opened name w).
  pose proof (for_each_ascii_body_world fos (file_lines content)
                (new_Mesh, new_Mesh) (opened name w)) as Hw.
  destruct (for_each (ascii_body fos) (file_lines content) _ _)
    as [[[t M1]|e|] w1]; cbn [fst snd] in *; subst w1;
    unfold doc_AddMesh, closed_after, opened; cbn;
    now rewrite <- app_assoc.
Qed.

Lemma ascii_body_irrelevant line s w :
  relevant_line line = false -> ascii_body fos line s w = (Ok s, w).
Proof.
  unfold relevant_line. intros H. apply orb_false_iff in H as [Hv He].
  destruct s as [temp MESH]. unfold ascii_body. now rewrite Hv, He.
Qed.

Lemma for_each_relevant lines : forall s w,
  for_each (ascii_body fos) lines s w
  = for_each (ascii_body fos) (List.filter relevant_line lines) s w.
Proof.
  induction lines as [|line lines IH]; intros s w; [reflexivity|].
  cbn [List.filter for_each]. destruct (relevant_line line) eqn:Hr.
  - cbn [for_each]. unfold bind.
    destruct (ascii_body fos line s w) as [[s1| |] w1]; [apply IH | reflexivity..].
  - erewrite bind_ok by (apply ascii_body_irrelevant, Hr). apply IH.
Qed.

Lemma ascii_body_tokens line temp MESH w x y z more :
  str_in (py "vertex") line = true ->
  map fos (vertex_tokens line) = map Some (x :: y :: z :: more) ->
  ascii_body fos line (temp, MESH) w
  = (Ok (if str_in (py "endloop") line
         then (new_Mesh,
               Mesh_Append MESH (Faces_AddFace (Vertices_Add temp x y z) 0 1 2))
         else (Vertices_Add temp x y z, MESH)),
     w).
Proof.
  intros Hv Ht. unfold ascii_body. rewrite Hv.
  erewrite bind_ok.
  2:{ erewrite bind_ok by (apply floats_of_ok; exact Ht). reflexivity. }
  now destruct (str_in (py "endloop") line).
Qed.

Lemma ascii_body_malformed line s w :
  str_in (py "vertex") line = true ->
  ((exists t, In t (vertex_tokens line) /\ fos t = None) ->
   ascii_body fos line s w = (Raise ValueError, w)) /\
  (forall q, map fos (vertex_tokens line) = map Some q -> length q < 3 ->
   ascii_body fos line s w = (Raise IndexError, w)).
Proof.
  intros Hv. destruct s as [temp MESH]. unfold ascii_body. rewrite Hv. split.
  - intros (t & Hin & Ht). apply bind_raise, bind_raise.
    now apply floats_of_rejected with (t := t).
  - intros q Hq Hlen. apply bind_raise.
    erewrite bind_ok by (apply floats_of_ok; exact Hq).
    destruct q as [|x [|y [|z q]]]; cbn in Hlen; try lia; reflexivity.
Qed.

Lemma for_each_stops_at_malformed lines line : forall s w,
  In line lines ->
  (exists e, forall s' w', ascii_body fos line s' w' = (Raise e, w')) ->
  exists e, fst (for_each (ascii_body fos) lines s w) = Raise e.
Proof.
  intros s w Hin [e He]. revert s w.
  induction lines as [|l lines IH]; intros s w; [destruct Hin|].
  cbn [for_each]. destruct Hin as [-> | Hin].
  - exists e. erewrite bind_raise by apply He. reflexivity.
  - unfold bind. destruct s as [temp MESH].
    pose proof (ascii_body_inv fos l temp MESH w) as Hb.
    destruct (ascii_body fos l (temp, MESH) w) as [[s1|e1|] w1].
    + now apply IH.
    + now exists e1.
    + destruct Hb.
Qed.

(** The shape of what the loop builds. *)
Lemma for_each_ascii_body_shape lines : forall temp MESH w temp' MESH' w',
  Faces temp = [] ->
  for_each (ascii_body fos) lines (temp, MESH) w = (Ok (temp', MESH'), w') ->
  length (Vertices MESH') + pending_after (length (Vertices temp)) lines
  = length (Vertices MESH) + length (Vertices temp)
    + count_lines_with (py "vertex") lines /\
  (count_lines_with (py "endloop") lines = 0 -> MESH' = MESH) /\
  (loops_exact (length (Vertices temp)) lines = true ->
   length (Vertices MESH')
   = length (Vertices MESH) + 3 * count_lines_with (py "endloop") lines /\
   Faces MESH'
   = Faces MESH
     ++ map (fun k => shift_face (length (Vertices MESH)) (flat_triangle k))
            (seq 0 (count_lines_with (py "endloop") lines))).
Proof.
  induction lines as [|line lines IH]; intros temp MESH w temp' MESH' w' Hf H.
  - cbn in H. injection H as <- <- _. cbn. rewrite app_nil_r.
    repeat split; auto; lia.
  - cbn [for_each] in H. unfold bind in H.
    pose proof (ascii_body_inv fos line temp MESH w) as Hb.
    destruct (ascii_body fos line (temp, MESH) w) as [[[t1 M1]|e|] w1];
      try discriminate.
    destruct Hb as (-> & temp1 & Hv & He).
    assert (Hf1 : Faces temp1 = [])
      by (destruct (str_in (py "vertex") line);
          [destruct Hv as (x & y & z & ->); exact Hf | now subst]).
    assert (Hl1 : length (Vertices temp1)
                  = if str_in (py "vertex") line
                    then S (length (Vertices temp))
                    else length (Vertices temp)).
    { destruct (str_in (py "vertex") line); [|now subst].
      destruct Hv as (x & y & z & ->). cbn [Vertices_Add Vertices].
      rewrite length_app. cbn [length]. lia. }
    cbn [count_lines_with pending_after loops_exact]. rewrite <- Hl1.
    assert (Hcv : (if str_in (py "vertex") line then 1 else 0)
                  + length (Vertices temp) = length (Vertices temp1))
      by (rewrite Hl1; destruct (str_in (py "vertex") line); lia).
    destruct (str_in (py "endloop") line).
    + destruct He as [-> ->].
      destruct (IH new_Mesh _ _ _ _ _ eq_refl H) as (Hc & _ & Hx).
      unfold Mesh_Append, Faces_AddFace in Hc, Hx.
      cbn [Vertices Faces new_Mesh length] in Hc, Hx.
      rewrite Hf1, length_app in *. cbn [map app] in Hx.
      split; [lia|]. split; [lia|].
      intros Hex. apply andb_true_iff in Hex as [H3 Hex].
      apply Nat.eqb_eq in H3. destruct (Hx Hex) as [HV HF].
      split; [lia|]. rewrite HF, <- app_assoc. f_equal.
      cbn [Nat.add seq map app]. apply f_equal2.
      * unfold shift_face, flat_triangle. apply face_ext; lia.
      * rewrite <- seq_shift, map_map. apply map_ext. intros k.
        unfold shift_face, flat_triangle. apply face_ext; lia.
    + destruct He as [-> ->].
      destruct (IH _ _ _ _ _ _ Hf1 H) as (Hc & Hz & Hx).
      split; [lia|]. split; [exact Hz | exact Hx].
Qed.

End AsciiLines.

(** ** The ASCII decoder, file by file *)

(** One malformed vertex line anywhere in a file -- a token [float] rejects,
    or fewer than three numbers -- and [meshAdder] ends with ValueError or
    IndexError: no mesh reaches the document, and the file is closed. *)
Theorem malformed_vertex_line_leaves_no_mesh fs fos name content line w :
  is_stl_name name = true -> fs name = Some content ->
  In line (file_lines content) ->
  str_in (py "vertex") line = true ->
  (exists t, In t (vertex_tokens line) /\ fos t = None) \/
  (exists q, map fos (vertex_tokens line) = map Some q /\ length q < 3) ->
  exists e,
    (e = ValueError \/ e = IndexError) /\
    meshAdder fs fos name w = (Raise e, closed_after name w).
Proof.
  intros Hn Hfs Hin Hv Hbad.
  rewrite (meshAdder_unfold fos fs name content w Hn Hfs).
  assert (Hl : exists e, forall s' w',
               ascii_body fos line s' w' = (Raise e, w')).
  { destruct Hbad as [Ht | (q & Hq & Hlen)].
    - exists ValueError. intros s' w'.
      now apply (proj1 (ascii_body_malformed fos line s' w' Hv)).
    - exists IndexError. intros s' w'.
      now apply (proj2 (ascii_body_malformed fos line s' w' Hv) q). }
  destruct (for_each_stops_at_malformed fos (file_lines content) line
              (new_Mesh, new_Mesh) (opened name w) Hin Hl) as [e He].
  pose proof (for_each_ascii_body_inv fos (file_lines content) new_Mesh
                new_Mesh (opened name w) eq_refl) as Hi.
  destruct (for_each (ascii_body fos) (file_lines content) _ _)
    as [[[t M1]|e1|] w1]; cbn [fst] in *; try discriminate.
  injection He as ->. exists e. now destruct Hi as [_ Hi].
Qed.

Lemma malformed_vertex_line_leaves_no_mesh_witness :
  meshAdder (single_file a_stl vertex_block_file) digit_float a_stl initial_world
  = (Raise ValueError, closed_after a_stl initial_world).
Proof.
  destruct (malformed_vertex_line_leaves_no_mesh
              (single_file a_stl vertex_block_file) digit_float a_stl vertex_block_file vertex_block_file initial_world eq_refl eq_refl) as (e & _ & He).
  - left. reflexivity.
  - reflexivity.
  - left. exists (py "solid"). split; [left; reflexivity | reflexivity].
  - rewrite He. vm_compute in He. injection He as ->. reflexivity.
Defined.

(** Lines that contain neither [vertex] nor [endloop] play no part: two
    files with the same lines of these two kinds, in the same order, are
    treated alike by [meshAdder]. *)
Theorem only_vertex_and_endloop_lines_matter fs1 fs2 fos name c1 c2 w :
  fs1 name = Some c1 -> fs2 name = Some c2 ->
  List.filter relevant_line (file_lines c1)
  = List.filter relevant_line (file_lines c2) ->
  meshAdder fs1 fos name w = meshAdder fs2 fos name w.
Proof.
  intros H1 H2 Hf. destruct (is_stl_name name) eqn:Hn.
  - rewrite (meshAdder_unfold fos fs1 name c1 w Hn H1).
    rewrite (meshAdder_unfold fos fs2 name c2 w Hn H2).
    rewrite (for_each_relevant fos (file_lines c1)).
    rewrite (for_each_relevant fos (file_lines c2)).
    now rewrite Hf.
  - now rewrite !meshAdder_not_stl.
Qed.

Lemma only_vertex_and_endloop_lines_matter_witness :
  meshAdder (single_file a_stl ascii_scenario) digit_float a_stl initial_world
  = meshAdder (single_file a_stl ascii_scenario_bare) digit_float a_stl initial_world.
Proof.
  apply (only_vertex_and_endloop_lines_matter
           (single_file a_stl ascii_scenario)
           (single_file a_stl ascii_scenario_bare) digit_float a_stl
           ascii_scenario ascii_scenario_bare initial_world eq_refl eq_refl).
  vm_compute. reflexivity.
Defined.

(** When [meshAdder] hands over a mesh, every vertex line has contributed
    one vertex: the mesh holds as many vertices as the file has vertex
    lines, less those that come after the last [endloop] line. *)
Theorem ascii_vertices_accounted_for fs fos name content w w' :
  is_stl_name name = true -> fs name = Some content ->
  meshAdder fs fos name w = (Ok tt, w') ->
  exists MESH,
    doc w' = doc w ++ [(name, MESH)] /\
    length (Vertices MESH) + pending_after 0 (file_lines content)
    = count_lines_with (py "vertex") (file_lines content).
Proof.
  intros Hn Hfs H.
  rewrite (meshAdder_unfold fos fs name content w Hn Hfs) in H.
  destruct (for_each (ascii_body fos) (file_lines content) _ _)
    as [[[t M1]|e|] w1] eqn:E; cbn [fst] in H; try discriminate.
  injection H as <-. exists M1. split; [reflexivity|].
  now destruct (for_each_ascii_body_shape fos _ new_Mesh _ _ _ _ _ eq_refl E)
    as (Hc & _).
Qed.

Lemma ascii_vertices_accounted_for_witness :
  exists MESH,
    doc (snd (meshAdder (single_file a_stl trailing_vertex_file) digit_float a_stl initial_world)) = [(a_stl, MESH)] /\
    length (Vertices MESH) + 1 = 2.
Proof.
  apply (ascii_vertices_accounted_for (single_file a_stl trailing_vertex_file) digit_float a_stl _ initial_world _ eq_refl eq_refl).
  vm_compute. reflexivity.
Defined.

(** The ASCII counterpart of the flat mesh: when every [endloop] line is
    reached with exactly three pending vertices, a mesh handed over for [n]
    such lines has [3 * n] vertices and the triangles
    [(3k, 3k+1, 3k+2)], [k < n], in order. *)
Theorem ascii_well_formed_mesh_is_flat fs fos name content w w' :
  is_stl_name name = true -> fs name = Some content ->
  loops_exact 0 (file_lines content) = true ->
  meshAdder fs fos name w = (Ok tt, w') ->
  exists MESH,
    doc w' = doc w ++ [(name, MESH)] /\
    length (Vertices MESH)
    = 3 * count_lines_with (py "endloop") (file_lines content) /\
    Faces MESH
    = map flat_triangle
          (seq 0 (count_lines_with (py "endloop") (file_lines content))).
Proof.
  intros Hn Hfs Hex H.
  rewrite (meshAdder_unfold fos fs name content w Hn Hfs) in H.
  destruct (for_each (ascii_body fos) (file_lines content) _ _)
    as [[[t M1]|e|] w1] eqn:E; cbn [fst] in H; try discriminate.
  injection H as <-. exists M1. split; [reflexivity|].
  destruct (for_each_ascii_body_shape fos _ new_Mesh _ _ _ _ _ eq_refl E)
    as (_ & _ & Hx).
  destruct (Hx Hex) as [HV HF]. split; [exact HV|].
  rewrite HF. cbn [new_Mesh Faces Vertices length app].
  apply map_ext. intros k. unfold shift_face, flat_triangle.
  apply face_ext; lia.
Qed.

Lemma ascii_well_formed_mesh_is_flat_witness :
  exists MESH,
    doc (snd (meshAdder (single_file a_stl ascii_scenario) digit_float a_stl
                initial_world)) = [(a_stl, MESH)] /\
    length (Vertices MESH) = 3 /\ Faces MESH = [(0, 1, 2)].
Proof.
  apply (ascii_well_formed_mesh_is_flat (single_file a_stl ascii_scenario)
           digit_float a_stl ascii_scenario initial_world _
           eq_refl eq_refl eq_refl).
  vm_compute. reflexivity.
Defined.

(** A file without an [endloop] line -- the empty file among them -- still
    puts a mesh into the document when [meshAdder] returns: the empty one.
    Vertex lines alone never reach the combined mesh. *)
Theorem ascii_without_endloop_gives_empty_mesh fs fos name content w w' :
  is_stl_name name = true -> fs name = Some content ->
  count_lines_with (py "endloop") (file_lines content) = 0 ->
  meshAdder fs fos name w = (Ok tt, w') ->
  doc w' = doc w ++ [(name, new_Mesh)].
Proof.
  intros Hn Hfs Hz H.
  rewrite (meshAdder_unfold fos fs name content w Hn Hfs) in H.
  destruct (for_each (ascii_body fos) (file_lines content) _ _)
    as [[[t M1]|e|] w1] eqn:E; cbn [fst] in H; try discriminate.
  injection H as <-.
  destruct (for_each_ascii_body_shape fos _ new_Mesh _ _ _ _ _ eq_refl E)
    as (_ & Hm & _).
  now rewrite (Hm Hz).
Qed.

Lemma ascii_without_endloop_gives_empty_mesh_witness :
  doc (snd (meshAdder (single_file a_stl []) digit_float a_stl initial_world))
  = [(a_stl, new_Mesh)].
Proof.
  apply (ascii_without_endloop_gives_empty_mesh (single_file a_stl [])
           digit_float a_stl [] initial_world _ eq_refl eq_refl eq_refl).
  vm_compute. reflexivity.
Defined.

(** ** A vertex line, character by character *)

Lemma starts_with_app p rest : starts_with p (p ++ rest) = true.
Proof.
  induction p as [|a p IH]; [reflexivity|]. cbn.
  unfold ascii_eqb. now rewrite Ascii.eqb_refl.
Qed.

Lemma starts_with_In p s c : starts_with p s = true -> In c p -> In c s.
Proof.
  revert s; induction p as [|a p IH]; intros [|b s] H Hin; cbn in *;
    try easy.
  apply andb_true_iff in H as [Hab H]. apply ascii_eqb_true in Hab. subst b.
  destruct Hin as [-> | Hin]; [now left | right; now apply IH].
Qed.

Lemma str_in_In p s c : str_in p s = true -> In c p -> In c s.
Proof.
  induction s as [|b s IH]; cbn [str_in]; intros H Hin.
  - rewrite orb_false_r in H. eapply starts_with_In; eassumption.
  - apply orb_true_iff in H as [H | H].
    + eapply starts_with_In; eassumption.
    + right. now apply IH.
Qed.

Lemma str_in_app p pre rest : str_in p (pre ++ p ++ rest) = true.
Proof.
  induction pre as [|b pre IH].
  - cbn [app]. destruct (p ++ rest) eqn:E; cbn [str_in];
      rewrite <- E, starts_with_app; reflexivity.
  - cbn [app str_in]. rewrite IH. apply orb_true_r.
Qed.

Lemma remove_from_skip p q rest :
  remove_from p (length q) (q ++ rest) = remove_from p 0 rest.
Proof. induction q as [|a q IH]; [reflexivity | exact IH]. Qed.

Lemma str_remove_absent c p s :
  char_in c s = false -> str_remove (c :: p) s = s.
Proof.
  unfold str_remove. induction s as [|a s IH]; [reflexivity|].
  rewrite char_in_cons. intros H. apply orb_false_iff in H as [Ha Hs].
  cbn [remove_from starts_with]. rewrite Ha. cbn [andb]. now rewrite IH.
Qed.

Lemma str_remove_first c p pre rest :
  char_in c pre = false ->
  str_remove (c :: p) (pre ++ (c :: p) ++ rest)
  = pre ++ str_remove (c :: p) rest.
Proof.
  unfold str_remove. induction pre as [|a pre IH]; intros H.
  - cbn [app remove_from]. 
    change (c :: p ++ rest) with ((c :: p) ++ rest).
    rewrite starts_with_app. cbn [length]. rewrite Nat.sub_1_r. cbn [Nat.pred].
    apply remove_from_skip.
  - rewrite char_in_cons in H. apply orb_false_iff in H as [Ha Hp].
    cbn [app remove_from starts_with]. rewrite Ha. cbn [andb].
    f_equal. apply IH, Hp.
Qed.

Lemma str_remove_trailing c s :
  char_in c s = false -> str_remove [c] (s ++ [c]) = s.
Proof.
  intros H. pose proof (str_remove_first c [] s [] H) as E.
  cbn [app] in E. rewrite E. cbn. apply app_nil_r.
Qed.

Lemma spaces_exclude c s :
  is_space c = false -> forallb is_space s = true -> char_in c s = false.
Proof.
  intros Hc. induction s as [|a s IH]; [reflexivity|]. cbn [forallb].
  intros H. apply andb_true_iff in H as [Ha Hs].
  rewrite char_in_cons, (IH Hs), orb_false_r.
  destruct (ascii_eqb c a) eqn:E; [|reflexivity].
  apply ascii_eqb_true in E. congruence.
Qed.

Lemma split_ws_leading indent s :
  forallb is_space indent = true -> split_ws (indent ++ s) = split_ws s.
Proof.
  unfold split_ws. induction indent as [|a indent IH]; [reflexivity|].
  cbn [forallb app split_ws_from]. intros H.
  apply andb_true_iff in H as [-> Hs]. now apply IH.
Qed.

(** A line of the form [vertex x y z ...], indented or not, with or without
    its newline, whose text after the keyword has neither a [v] nor a [d]:
    if [float] accepts every token after the keyword and there are at least
    three, the pending mesh gains the vertex of the first three and nothing
    else happens; further numbers on the line are dropped. *)
Theorem vertex_line_adds_first_three_numbers
    fos indent body eol x y z more temp MESH w :
  forallb is_space indent = true -> char_in LF indent = false ->
  char_in "v" body = false -> char_in "d" body = false ->
  char_in LF body = false ->
  eol = [] \/ eol = [LF] ->
  map fos (split_ws body) = map Some (x :: y :: z :: more) ->
  ascii_body fos (indent ++ py "vertex" ++ body ++ eol) (temp, MESH) w
  = (Ok (Vertices_Add temp x y z, MESH), w).
Proof.
  intros Hsp Hnl Hv Hd Hlf Heol Htok.
  assert (Hiv : char_in "v" indent = false) by now apply spaces_exclude.
  assert (Hid : char_in "d" indent = false) by now apply spaces_exclude.
  assert (Hev : forall c, is_space c = false -> char_in c eol = false).
  { intros c Hc. destruct Heol as [-> | ->]; [reflexivity|].
    apply spaces_exclude; [exact Hc | reflexivity]. }
  set (line := indent ++ py "vertex" ++ body ++ eol).
  assert (H1 : str_in (py "vertex") line = true) by apply str_in_app.
  assert (H2 : str_in (py "endloop") line = false).
  { destruct (str_in (py "endloop") line) eqn:E; [|reflexivity].
    apply str_in_In with (c := "d"%char) in E;
      [|cbn; right; right; now left].
    apply char_in_true in E. unfold line in E.
    rewrite !char_in_app, Hid, Hd, (Hev "d"%char eq_refl) in E.
    discriminate. }
  assert (H3 : vertex_tokens line = split_ws body).
  { unfold vertex_tokens, line.
    change (py "vertex") with ("v"%char :: py "ertex").
    rewrite str_remove_first by exact Hiv.
    rewrite (str_remove_absent "v" (py "ertex") (body ++ eol))
      by (rewrite char_in_app, Hv; now apply Hev).
    destruct Heol as [-> | ->].
    - rewrite app_nil_r, str_remove_absent
        by (now rewrite char_in_app, Hnl, Hlf).
      now apply split_ws_leading.
    - rewrite app_assoc.
      rewrite str_remove_trailing by (now rewrite char_in_app, Hnl, Hlf).
      now apply split_ws_leading. }
  rewrite (ascii_body_tokens fos line temp MESH w x y z more H1)
    by (now rewrite H3).
  now rewrite H2.
Qed.

Lemma vertex_line_adds_first_three_numbers_witness :
  ascii_body digit_float (py "  vertex 1 2 3 4
") (new_Mesh, new_Mesh) initial_world
  = (Ok (mkMesh [(1, 2, 3)%Z] [], new_Mesh), initial_world).
Proof.
  exact (vertex_line_adds_first_three_numbers digit_float
           (py "  ") (py " 1 2 3 4") [LF] 1 2 3 [4%Z] new_Mesh new_Mesh
           initial_world eq_refl eq_refl eq_refl eq_refl eq_refl
           (or_intror eq_refl) eq_refl).
Defined.

(** ** Files opened with [with] *)

(** The sniffer and the ASCII decoder close the file they open, whatever the
    outcome -- an early [return True], the end of the file, or the error of
    a malformed vertex line: each adds to the record one opening followed by
    one closing, or nothing when the name is not an STL name or the file
    cannot be opened. *)
Theorem sniffer_and_ascii_decoder_close_their_file fs fos name w :
  let events :=
    if is_stl_name name
    then match fs name with
         | Some _ => [EvOpen name; EvClose name]
         | None => []
         end
    else [] in
  trace (snd (is_binary fs name w)) = trace w ++ events /\
  trace (snd (meshAdder fs fos name w)) = trace w ++ events.
Proof. split; [apply is_binary_trace | apply meshAdder_trace]. Qed.

(** ** The batch loop *)

(** Entries whose name is not an STL name leave no mark at all: the batch
    over a listing with such an entry is the batch over the listing without
    it. *)
Theorem batch_skips_other_names fs fos before name after w :
  is_stl_name name = false ->
  batch fs fos (before ++ name :: after) w = batch fs fos (before ++ after) w.
Proof.
  intros Hn. unfold batch. revert w.
  induction before as [|b before IH]; intros w; cbn [app for_each].
  - erewrite bind_ok; [reflexivity|]. unfold batch_body.
    erewrite bind_ok by (now apply is_binary_not_stl).
    cbn [truthy]. now apply meshAdder_not_stl.
  - unfold bind. destruct (batch_body fs fos b w) as [[[]| |] w1];
      [apply IH | reflexivity..].
Qed.

Lemma batch_skips_other_names_witness :
  batch (single_file a_stl two_facets) digit_float
        [a_stl; py "readme.txt"; a_stl] initial_world
  = batch (single_file a_stl two_facets) digit_float [a_stl; a_stl]
          initial_world.
Proof.
  exact (batch_skips_other_names (single_file a_stl two_facets) digit_float
           [a_stl] (py "readme.txt") [a_stl] initial_world eq_refl).
Defined.

(** When the batch runs to its end, the document holds, after what it held
    before, what each file puts there when processed alone from the initial
    state, in the order of the listing. *)
Theorem batch_document_in_listing_order fs fos files : forall w w',
  empty_accumulators w ->
  batch fs fos files w = (Ok tt, w') ->
  doc w'
  = doc w
    ++ flat_map (fun name => doc (snd (batch_body fs fos name initial_world)))
                files.
Proof.
  unfold batch. induction files as [|name files IH]; intros w w' Hw H.
  - cbn in H. injection H as <-. cbn. now rewrite app_nil_r.
  - cbn [for_each] in H. unfold bind in H.
    pose proof (batch_body_keeps_empty fs fos name w Hw) as He.
    assert (Ha : accs w = accs initial_world) by (rewrite Hw; reflexivity).
    destruct (framed_batch_body fs fos name w initial_world Ha)
      as (_ & _ & t & d & [_ G1] & [_ G2]).
    destruct (batch_body fs fos name w) as [[[]| |] w1]; try discriminate.
    cbn [snd fst] in *. specialize (He eq_refl).
    rewrite (IH w1 w' He H), G1. cbn [flat_map].
    rewrite G2. cbn [doc initial_world app]. now rewrite <- app_assoc.
Qed.

Lemma batch_document_in_listing_order_witness :
  doc (snd (batch (single_file a_stl two_facets) digit_float [a_stl; a_stl]
              initial_world))
  = doc initial_world
    ++ flat_map
         (fun name =>
            doc (snd (batch_body (single_file a_stl two_facets) digit_float
                        name initial_world)))
         [a_stl; a_stl].
Proof.
  apply (batch_document_in_listing_order (single_file a_stl two_facets)
           digit_float [a_stl; a_stl] initial_world _ eq_refl).
  vm_compute. reflexivity.
Defined.

(** An entry with an STL name that cannot be opened -- a directory, say --
    stops the batch with IOError at the sniffer, before anything is decoded;
    the entries after it are not looked at. *)
Theorem unreadable_stl_entry_stops_the_batch fs fos name rest w :
  is_stl_name name = true -> fs name = None ->
  batch fs fos (name :: rest) w = (Raise IOError, w).
Proof.
  intros Hn Hfs. unfold batch. cbn [for_each].
  apply bind_raise. unfold batch_body. apply bind_raise.
  unfold is_binary, with_open, open_file. now rewrite Hn, Hfs.
Qed.

Lemma unreadable_stl_entry_stops_the_batch_witness :
  batch (single_file a_stl two_facets) digit_float [py "b.stl"; a_stl]
        initial_world
  = (Raise IOError, initial_world).
Proof.
  exact (unreadable_stl_entry_stops_the_batch (single_file a_stl two_facets)
           digit_float (py "b.stl") [a_stl] initial_world eq_refl eq_refl).
Defined.

Lemma binary_mesh_counts_witness :
  exists w1 MESH,
    decodeBinary (single_file a_stl two_facets) a_stl initial_world
    = (Ok tt, w1) /\
    triangles w1 = [(0, 1, 2); (3, 4, 5)] /\
    meshBinaryAdder (single_file a_stl two_facets) a_stl initial_world
    = doc_AddMesh a_stl MESH w1 /\
    length (Vertices MESH) = 12.
Proof.
  destruct (binary_mesh_counts (single_file a_stl two_facets) a_stl header80
              (le_bytes 4 2) (drop 84 two_facets) 2 initial_world)
    as (w1 & MESH & H1 & _ & _ & H2 & H3 & H4 & _);
    try (vm_compute; reflexivity).
  exists w1, MESH. repeat split; assumption.
Defined.

(** * The sniffer's classification *)

Lemma suffix_after_last_dot_code s :
  match suffix_after_last_dot s with
  | Some t => char_in DOT s = true /\ last_component s = t
  | None => char_in DOT s = false /\ last_component s = s
  end.
Proof.
  induction s as [|c s IH]; [now split|].
  cbn [suffix_after_last_dot last_component]. rewrite char_in_cons.
  destruct (suffix_after_last_dot s) as [t|].
  - destruct IH as [-> ->]. now rewrite orb_true_r.
  - destruct IH as [-> _]. rewrite orb_false_r.
    now destruct (ascii_eqb DOT c).
Qed.

(** The names [is_stl_name] accepts, in the words of the specification and
    with the one name they leave out. *)
Lemma is_stl_name_spec name :
  is_stl_name name = true
  <-> name = stl_name \/ suffix_after_last_dot name = Some (py "stl").
Proof.
  rewrite is_stl_name_suffix.
  pose proof (suffix_after_last_dot_code name) as H.
  destruct (suffix_after_last_dot name) as [t|].
  - destruct H as [Hd ->]. split.
    + intros ->. now right.
    + intros [-> | [= ->]]; [discriminate Hd | reflexivity].
  - destruct H as [_ ->]. split.
    + intros ->. now left.
    + intros [-> | H]; [reflexivity | discriminate H].
Qed.

(** C3 as stated fails: the name [stl] has no dot, hence no suffix after a
    last dot, yet the file of that name is opened and sniffed. *)
Lemma C3_counterexample :
  suffix_after_last_dot stl_name <> Some (py "stl") /\
  fst (is_binary (single_file stl_name two_facets) stl_name initial_world)
  = Ok (Some true) /\
  trace (snd (is_binary (single_file stl_name two_facets) stl_name
                initial_world))
  = [EvOpen stl_name; EvClose stl_name].
Proof. repeat split. discriminate. Qed.

(** C3, amended.  [is_binary] returns [None] (not an STL file) exactly when
    the name is not the bare name [stl] and the suffix after its last dot is
    not [stl]; in that case neither the sniffer nor [meshAdder], which the
    batch loop then calls, changes the world: no file is opened.  For every
    other name whose file can be opened -- a name ending in [.stl], or the
    bare name [stl] -- the result is [True] (binary) exactly when the
    contents have a NUL byte and [False] (ASCII) exactly when they have
    none. *)
Theorem C3_classification fs name w :
  (fst (is_binary fs name w) = Ok None
   <-> name <> stl_name /\ suffix_after_last_dot name <> Some (py "stl")) /\
  (name <> stl_name /\ suffix_after_last_dot name <> Some (py "stl") ->
   is_binary fs name w = (Ok None, w) /\
   forall fos, meshAdder fs fos name w = (Ok tt, w)) /\
  (forall content,
     name = stl_name \/ suffix_after_last_dot name = Some (py "stl") ->
     fs name = Some content ->
     (fst (is_binary fs name w) = Ok (Some true) <-> In NUL content) /\
     (fst (is_binary fs name w) = Ok (Some false) <-> ~ In NUL content)).
Proof.
  assert (Hno : name <> stl_name /\
                suffix_after_last_dot name <> Some (py "stl")
                <-> is_stl_name name = false).
  { rewrite <- not_true_iff_false, is_stl_name_spec. tauto. }
  split; [|split].
  - rewrite Hno. split.
    + intros H. destruct (is_stl_name name) eqn:Hn; [|reflexivity].
      now apply is_binary_stl_not_None with (fs := fs) (w := w) in Hn.
    + intros Hn. now rewrite is_binary_not_stl.
  - intros Hn%Hno. split.
    + now apply is_binary_not_stl.
    + intros fos. now apply meshAdder_not_stl.
  - intros content Hn%is_stl_name_spec Hfs.
    rewrite (is_binary_stl fs name content w Hn Hfs), <- char_in_true.
    destruct (char_in NUL content); split; split;
      congruence || discriminate || auto.
Qed.

(** [readme.txt] is not opened; [a.stl] and [stl] with the two-facet file
    are binary. *)
Lemma C3_witness :
  (py "readme.txt" <> stl_name /\
   suffix_after_last_dot (py "readme.txt") <> Some (py "stl")) /\
  is_binary (single_file a_stl two_facets) (py "readme.txt") initial_world
  = (Ok None, initial_world) /\
  fst (is_binary (single_file a_stl two_facets) a_stl initial_world)
  = Ok (Some true) /\
  fst (is_binary (single_file stl_name two_facets) stl_name initial_world)
  = Ok (Some true).
Proof.
  assert (H1 : py "readme.txt" <> stl_name /\
               suffix_after_last_dot (py "readme.txt") <> Some (py "stl"))
    by (split; vm_compute; discriminate).
  split; [exact H1|]. split; [|split].
  - exact (proj1 (proj1 (proj2 (C3_classification
             (single_file a_stl two_facets) (py "readme.txt") initial_world))
             H1)).
  - apply (proj2 (proj2 (C3_classification
             (single_file a_stl two_facets) a_stl initial_world))
             two_facets (or_intror eq_refl) eq_refl).
    left. reflexivity.
  - apply (proj2 (proj2 (C3_classification
             (single_file stl_name two_facets) stl_name initial_world))
             two_facets (or_introl eq_refl) eq_refl).
    left. reflexivity.
Defined.

(** * The ASCII path on every input *)

Section AsciiTotal.

Variable fos : pystr -> option Z.

Lemma accepted_all toks :
  forallb (accepted fos) toks = true -> exists q, map fos toks = map Some q.
Proof.
  induction toks as [|t toks IH]; cbn [forallb]; [now exists []|].
  intros H. apply andb_true_iff in H as [Ht Hr].
  destruct (IH Hr) as [q Hq]. unfold accepted in Ht.
  destruct (fos t) as [v|] eqn:E; [|discriminate].
  exists (v :: q). cbn. now rewrite E, Hq.
Qed.

Lemma rejected_some toks :
  forallb (accepted fos) toks = false -> exists t, In t toks /\ fos t = None.
Proof.
  induction toks as [|t toks IH]; cbn [forallb]; [discriminate|].
  intros H. apply andb_false_iff in H as [Ht | Hr].
  - exists t. split; [now left|]. unfold accepted in Ht.
    now destruct (fos t).
  - destruct (IH Hr) as (t' & Hin & Hn). exists t'. split; [now right | exact Hn].
Qed.

Lemma ascii_body_ok line s w :
  vertex_line_ok fos line = true -> exists s', ascii_body fos line s w = (Ok s', w).
Proof.
  unfold vertex_line_ok. intros H. destruct s as [temp MESH].
  destruct (str_in (py "vertex") line) eqn:Hv; cbn [negb orb] in H.
  - apply andb_true_iff in H as [Ha Hl]. apply Nat.leb_le in Hl.
    destruct (accepted_all _ Ha) as [q Hq].
    assert (Hlen : length q = length (vertex_tokens line))
      by (rewrite <- (length_map Some q), <- Hq; apply length_map).
    destruct q as [|x [|y [|z more]]]; cbn [length] in Hlen; try lia.
    rewrite (ascii_body_tokens fos line temp MESH w x y z more Hv Hq).
    eexists. reflexivity.
  - unfold ascii_body. rewrite Hv. unfold bind, ret.
    destruct (str_in (py "endloop") line); eexists; reflexivity.
Qed.

Lemma ascii_body_not_ok line :
  vertex_line_ok fos line = false ->
  exists e, forall s w, ascii_body fos line s w = (Raise e, w).
Proof.
  unfold vertex_line_ok. intros H.
  apply orb_false_iff in H as [Hv H]. apply negb_false_iff in Hv.
  destruct (forallb (accepted fos) (vertex_tokens line)) eqn:Ha.
  - cbn [andb] in H. apply Nat.leb_gt in H.
    destruct (accepted_all _ Ha) as [q Hq].
    assert (Hlen : length q = length (vertex_tokens line))
      by (rewrite <- (length_map Some q), <- Hq; apply length_map).
    exists IndexError. intros s w.
    apply (proj2 (ascii_body_malformed fos line s w Hv) q Hq). lia.
  - exists ValueError. intros s w.
    apply (proj1 (ascii_body_malformed fos line s w Hv)).
    now apply rejected_some.
Qed.

Lemma for_each_all_ok lines : forall s w,
  forallb (vertex_line_ok fos) lines = true ->
  exists s', for_each (ascii_body fos) lines s w = (Ok s', w).
Proof.
  induction lines as [|line lines IH]; intros s w H; cbn [forallb] in H.
  - now exists s.
  - apply andb_true_iff in H as [Hl Hr].
    destruct (ascii_body_ok line s w Hl) as [s1 E1].
    destruct (IH s1 w Hr) as [s' E]. exists s'.
    cbn [for_each]. now erewrite bind_ok by exact E1.
Qed.

Lemma for_each_some_not_ok lines s w :
  forallb (vertex_line_ok fos) lines = false ->
  exists e, fst (for_each (ascii_body fos) lines s w) = Raise e.
Proof.
  intros H.
  assert (Hb : exists line, In line lines /\ vertex_line_ok fos line = false).
  { induction lines as [|l lines IH]; cbn [forallb] in H; [discriminate|].
    apply andb_false_iff in H as [Hl | Hr].
    - exists l. split; [now left | exact Hl].
    - destruct (IH Hr) as (l' & Hin & Hl'). exists l'.
      split; [now right | exact Hl']. }
  destruct Hb as (line & Hin & Hl).
  apply for_each_stops_at_malformed with (line := line); [exact Hin|].
  destruct (ascii_body_not_ok line Hl) as [e He]. now exists e.
Qed.


End AsciiTotal.

(** C10 as stated fails: a vertex line without numbers before an [endloop]
    line makes [meshAdder] stop with IndexError; one line contains [endloop]
    and no mesh, hence no triangle, is handed over. *)
Lemma C10_counterexample :
  count_lines_with (py "endloop") (file_lines bare_vertex_file) = 1 /\
  meshAdder (single_file a_stl bare_vertex_file) digit_float a_stl
    initial_world
  = (Raise IndexError, closed_after a_stl initial_world).
Proof. split; vm_compute; reflexivity. Qed.

(** C10, amended.  For a file the ASCII path can open: if every line that
    contains [vertex] leaves, once the keyword is removed, at least three
    tokens that [float] accepts, [meshAdder] returns and hands over one mesh
    whose number of faces is the number of lines containing [endloop];
    otherwise it stops with ValueError or IndexError and hands over nothing.
    Nothing checks the pending vertices: an [endloop] line appends the
    pending mesh, however many vertices it holds, with the one face (0,1,2)
    shifted by the vertices already in the combined mesh. *)
Theorem C10_one_face_per_endloop_line fs fos name content w :
  is_stl_name name = true -> fs name = Some content ->
  (if forallb (vertex_line_ok fos) (file_lines content)
   then exists MESH,
          fst (meshAdder fs fos name w) = Ok tt /\
          doc (snd (meshAdder fs fos name w)) = doc w ++ [(name, MESH)] /\
          length (Faces MESH)
          = count_lines_with (py "endloop") (file_lines content)
   else exists e,
          (e = ValueError \/ e = IndexError) /\
          meshAdder fs fos name w = (Raise e, closed_after name w)) /\
  (forall line pending MESH u,
     str_in (py "vertex") line = false ->
     str_in (py "endloop") line = true ->
     ascii_body fos line (mkMesh pending [], MESH) u
     = (Ok (new_Mesh,
            mkMesh (Vertices MESH ++ pending)
                   (Faces MESH
                    ++ [shift_face (length (Vertices MESH)) (0, 1, 2)])),
        u)).
Proof.
  intros Hn Hfs. split.
  - rewrite (meshAdder_unfold fos fs name content w Hn Hfs).
    pose proof (for_each_ascii_body_inv fos (file_lines content) new_Mesh
                  new_Mesh (opened name w) eq_refl) as Hi.
    destruct (forallb (vertex_line_ok fos) (file_lines content)) eqn:Hok.
    + destruct (for_each_all_ok fos (file_lines content)
                  (new_Mesh, new_Mesh) (opened name w) Hok) as [[t M1] E].
      rewrite E in *. cbn [fst snd doc]. destruct Hi as (_ & _ & Hc & _).
      exists M1. repeat split. exact Hc.
    + destruct (for_each_some_not_ok fos (file_lines content)
                  (new_Mesh, new_Mesh) (opened name w) Hok) as [e E].
      destruct (for_each (ascii_body fos) (file_lines content) _ _)
        as [[[t M1]|e1|] w1]; cbn [fst] in *; try discriminate.
      injection E as ->. exists e. now destruct Hi as [_ Hi].
  - intros line pending MESH u Hv He. now rewrite ascii_body_endloop.
Qed.

(** One [endloop] line and no vertex: the file is read to its end and the
    mesh has one face. *)
Lemma C10_witness :
  is_stl_name a_stl = true /\
  single_file a_stl lone_endloop a_stl = Some lone_endloop /\
  forallb (vertex_line_ok digit_float) (file_lines lone_endloop) = true /\
  exists MESH,
    fst (meshAdder (single_file a_stl lone_endloop) digit_float a_stl
           initial_world) = Ok tt /\
    doc (snd (meshAdder (single_file a_stl lone_endloop) digit_float a_stl
                initial_world)) = doc initial_world ++ [(a_stl, MESH)] /\
    length (Faces MESH) = 1.
Proof.
  split; [reflexivity|]. split; [reflexivity|]. split; [reflexivity|].
  exact (proj1 (C10_one_face_per_endloop_line
           (single_file a_stl lone_endloop) digit_float a_stl lone_endloop
           initial_world eq_refl eq_refl)).
Defined.



